(** * DjinnJS Pjax: the navigation coordinator, embedded and verified

    A shallow embedding of [src/core/pjax.ts] (the [Pjax] class), of the parts
    of [src/core/env.ts] it reads, and of the browser interfaces it drives
    (DOM selection, session history, web storage), followed by the theorems
    that settle the statements of the specification.

    Conventions.
    - A JavaScript [null]/[undefined] is [None]; a method that can throw
      returns a [Completion].
    - A node reference is the index of the element in the document's list of
      elements (document order), so that a mutation through a reference is an
      update at that index.
    - Everything the coordinator does to the outside world (messages, console
      output, location changes, calls of the transition manager) is appended
      to a log of [Effect]s, oldest first. *)

From Stdlib Require Import ZArith Lia Ascii String.
From stdpp Require Import base option strings list gmap pretty.

Local Open Scope string_scope.
Local Open Scope list_scope.

#[local] Set Warnings "-clear-no-such-hyp".

(** ** JavaScript values and completions *)

Module JS.

Inductive Error : Type :=
| TypeError (msg : string).

(** The completion of a call: a value, or a thrown error. *)
Inductive Completion (A : Type) : Type :=
| Normal (a : A)
| Throw (e : Error).
Arguments Normal {A} a.
Arguments Throw {A} e.

Definition is_Normal {A} (c : Completion A) : bool :=
  match c with Normal _ => true | Throw _ => false end.

(** Template-literal conversion of an optional string: [`${x}`]. *)
Definition to_string (x : option string) : string :=
  match x with Some s => s | None => "undefined" end.

(** Truthiness of a [string | null]: [null] and the empty string are falsy. *)
Definition truthy (x : option string) : bool :=
  match x with
  | Some s => negb (bool_decide (s = ""))
  | None => false
  end.

(** *** [parseInt(s)] with the default radix

    Leading white space is skipped, a sign is read, a [0x]/[0X] prefix
    selects radix 16, and the longest prefix of digits is converted; no
    digit at all gives [NaN], here [None]. Numbers are mathematical
    integers (the rounding of doubles above 2^53 is not modelled). *)

Definition is_space (c : ascii) : bool :=
  let n := nat_of_ascii c in
  (n =? 32)%nat || ((9 <=? n)%nat && (n <=? 13)%nat).

Fixpoint skip_spaces (s : string) : string :=
  match s with
  | String c r => if is_space c then skip_spaces r else s
  | EmptyString => s
  end.

Definition digit_value (c : ascii) : option Z :=
  let n := Z.of_nat (nat_of_ascii c) in
  if (48 <=? n)%Z && (n <=? 57)%Z then Some (n - 48)%Z
  else if (97 <=? n)%Z && (n <=? 122)%Z then Some (n - 87)%Z
  else if (65 <=? n)%Z && (n <=? 90)%Z then Some (n - 55)%Z
  else None.

(** Longest prefix of digits of the radix, most significant first;
    [acc = None] while no digit has been read. *)
Fixpoint digits (radix : Z) (acc : option Z) (s : string) : option Z :=
  match s with
  | String c r =>
      match digit_value c with
      | Some d =>
          if (d <? radix)%Z
          then digits radix (Some (default 0%Z acc * radix + d)%Z) r
          else acc
      | None => acc
      end
  | EmptyString => acc
  end.

Definition unsigned (s : string) : option Z :=
  match s with
  | String "0" (String "x" r) | String "0" (String "X" r) => digits 16 None r
  | _ => digits 10 None s
  end.

Definition parseInt_string (s : string) : option Z :=
  match skip_spaces s with
  | String "-" r => Z.opp <$> unsigned r
  | String "+" r => unsigned r
  | r => unsigned r
  end.

(** [parseInt(x)] for [x : string | null]: [null] reads as ["null"]. *)
Definition parseInt (x : option string) : option Z :=
  match x with Some s => parseInt_string s | None => None end.

(** [a >= b] on numbers, false as soon as one side is [NaN]. *)
Definition ge (a b : option Z) : bool :=
  match a, b with
  | Some x, Some y => (y <=? x)%Z
  | _, _ => false
  end.

(** [`${n}`] for a number. *)
Definition number_to_string (n : option Z) : string :=
  match n with Some z => pretty z | None => "NaN" end.

End JS.

Import JS.

(** ** The DOM: elements, selectors, selection *)

Module DOM.

Record Element : Type := {
  tagName : string;                     (* local name, lower case *)
  attributes : gmap string string;
  classList : list string;
  ancestors : list string;              (* local names of the proper ancestors *)
  innerHTML : string;
  href : string;                        (* the resolved [href] property of an anchor *)
  listeners : list (string * string);   (* [addEventListener] calls received *)
}.

Record Document : Type := {
  title : string;
  elements : list Element;              (* document order *)
}.

Definition getAttribute (name : string) (e : Element) : option string :=
  attributes e !! name.

Definition setAttribute (name value : string) (e : Element) : Element :=
  {| tagName := tagName e;
     attributes := <[name := value]> (attributes e);
     classList := classList e;
     ancestors := ancestors e;
     innerHTML := innerHTML e;
     href := href e;
     listeners := listeners e |}.

(** The calls are recorded one by one; the browser itself would ignore a
    second registration of the same listener. *)
Definition addEventListener (type listener : string) (e : Element) : Element :=
  {| tagName := tagName e;
     attributes := attributes e;
     classList := classList e;
     ancestors := ancestors e;
     innerHTML := innerHTML e;
     href := href e;
     listeners := listeners e ++ [(type, listener)] |}.

(** *** The selectors the coordinator writes

    [a[href]:not([target]):not(.no-pjax)] is a compound of simple selectors;
    [header a...] adds one descendant combinator whose left side is a type
    selector. *)
Inductive Simple : Type :=
| type_ (name : string)                 (* [main] *)
| attr (name : string)                  (* [[href]] *)
| attr_eq (name value : string)         (* [[pjax-id="x"]] *)
| class_ (name : string)                (* [.no-pjax] *)
| not_ (s : Simple).                    (* [:not(s)] *)

Record Selector : Type := {
  within : option string;
  compound : list Simple;
}.

Fixpoint matches_simple (s : Simple) (e : Element) : bool :=
  match s with
  | type_ n => bool_decide (tagName e = n)
  | attr n => bool_decide (is_Some (attributes e !! n))
  | attr_eq n v => bool_decide (attributes e !! n = Some v)
  | class_ c => bool_decide (c ∈ classList e)
  | not_ s' => negb (matches_simple s' e)
  end.

Definition matches (sel : Selector) (e : Element) : bool :=
  forallb (λ s, matches_simple s e) (compound sel)
  && match within sel with
     | Some t => bool_decide (t ∈ ancestors e)
     | None => true
     end.

(** References (indices from [i] on), each with the element it denotes, of
    the elements of [l] satisfying [P]. *)
Fixpoint select (P : Element → bool) (i : nat) (l : list Element) : list (nat * Element) :=
  match l with
  | [] => []
  | e :: l' => if P e then (i, e) :: select P (S i) l' else select P (S i) l'
  end.

(** [doc.querySelectorAll(sel)] and [doc.querySelector(sel)]. *)
Definition querySelectorAll (sel : Selector) (doc : Document) : list (nat * Element) :=
  select (matches sel) 0 (elements doc).

Definition querySelector (sel : Selector) (doc : Document) : option (nat * Element) :=
  head (querySelectorAll sel doc).

(** [document.body.querySelectorAll(sel)]: only descendants of [body]. *)
Definition inBody (e : Element) : bool := bool_decide ("body" ∈ ancestors e).

Definition body_querySelectorAll (sel : Selector) (doc : Document) : list (nat * Element) :=
  select (λ e, inBody e && matches sel e) 0 (elements doc).

Definition body_querySelector (sel : Selector) (doc : Document) : option (nat * Element) :=
  head (body_querySelectorAll sel doc).

(** A mutation of the element behind a reference. *)
Definition update (f : Element → Element) (ref : nat) (doc : Document) : Document :=
  {| title := title doc; elements := alter f ref (elements doc) |}.

End DOM.

(** ** The session history of the window

    [window.history] as the HTML standard describes it: a list of entries and
    the index of the current one. [pushState] drops the entries after the
    current one and appends the new entry; [replaceState] overwrites the
    current entry. *)

Module History.

Record State : Type := { url : string }.

Record Entry : Type := {
  entry_state : option State;
  entry_title : string;
  entry_url : string;
}.

Record SessionHistory : Type := {
  entries : list Entry;
  current : nat;
}.

(** [history.length] *)
Definition length (h : SessionHistory) : nat := List.length (entries h).

(** [history.state] *)
Definition state (h : SessionHistory) : option State :=
  e ← entries h !! current h; entry_state e.

Definition replaceState (st : State) (title url : string) (h : SessionHistory) : SessionHistory :=
  {| entries := <[current h := {| entry_state := Some st; entry_title := title; entry_url := url |}]> (entries h);
     current := current h |}.

Definition pushState (st : State) (title url : string) (h : SessionHistory) : SessionHistory :=
  {| entries := take (S (current h)) (entries h)
                ++ [{| entry_state := Some st; entry_title := title; entry_url := url |}];
     current := S (current h) |}.

(** A window always has a current entry. *)
Definition wf (h : SessionHistory) : Prop := current h < List.length (entries h).

End History.

(** ** The environment signals of [env.ts] read by the coordinator *)

Module Env.

(** [type NetworkType = "4g" | "3g" | "2g" | "slow-2g"] *)
Inductive NetworkType : Type := _4g | _3g | _2g | slow_2g.

Record Env : Type := {
  connection : NetworkType;
  dataSaver : bool;
}.

End Env.

(** ** The [Pjax] class of [pjax.ts] *)

Module Pjax.

Import DOM.

Inductive HistoryMode : Type := push | replace.

Record NavigaitonRequest : Type := {
  body : option string;
  title : option string;
  url : string;
  history : HistoryMode;
  requestUid : string;
  transition : option string;
  transitionData : option string;
  targetSelector : option string;
}.

(** [request.body = b; request.title = t] *)
Definition set_body_title (b t : string) (r : NavigaitonRequest) : NavigaitonRequest :=
  {| body := Some b; title := Some t; url := url r; history := history r;
     requestUid := requestUid r; transition := transition r;
     transitionData := transitionData r; targetSelector := targetSelector r |}.

(** *** What leaves the coordinator *)

(** Messages posted to the Pjax web worker. *)
Inductive WorkerMessage : Type :=
| worker_pjax (requestId url currentUrl : string)
| worker_revision_check (url : string)
| worker_prefetch (urls : list string).

(** Messages posted to the service worker. *)
Inductive ServiceWorkerMessage : Type :=
| sw_cachebust (url : string)
| sw_page_refresh (url : string) (network : Env.NetworkType)
| sw_clear_content_cache.

(** Messages sent through the broadcaster. *)
Inductive BusMessage : Type :=
| parse (body requestUid : string)
| finalize_pjax (url : string) (title : option string) (history : HistoryMode)
| mount_components
| mount_inline_scripts (selector : Selector)
| completed.

Inductive Effect : Type :=
| console_error (msg : string)
| location_href (url : string)                    (* [window.location.href = url] *)
| location_hash (fragment : string)               (* [location.hash = fragment] *)
| document_title (title : string)                 (* [document.title = title] *)
| env_startPageTransition
| env_endPageTransition
| worker_postMessage (m : WorkerMessage)
| serviceWorker_postMessage (m : ServiceWorkerMessage)
| broadcaster_message (recipient : string) (m : BusMessage)
| io_observe (link : nat)
| notify (message : string)
  (* [transitionManager(selector, newHTML, transition, transitionData).then(k)],
     with the request object the callback [k] has captured *)
| transitionManager (selector : Selector) (newHTML transition transitionData : option string)
                    (captured : NavigaitonRequest).

Definition is_console_error (e : Effect) : bool :=
  match e with console_error _ => true | _ => false end.

Definition is_transitionManager (e : Effect) : bool :=
  match e with transitionManager _ _ _ _ _ => true | _ => false end.

Definition is_parse (e : Effect) : bool :=
  match e with broadcaster_message _ (parse _ _) => true | _ => false end.

Definition is_io_observe (e : Effect) : bool :=
  match e with io_observe _ => true | _ => false end.

(** *** The instance *)

Record PjaxState : Type := { activeRequestUid : option string }.

Record Pjax : Type := {
  state : PjaxState;
  navigationRequestQueue : list NavigaitonRequest;
  effects : list Effect;                          (* the log, oldest first *)
}.

(** The instance the constructor builds. *)
Definition new : Pjax :=
  {| state := {| activeRequestUid := None |};
     navigationRequestQueue := [];
     effects := [] |}.

(** *** Methods as state transformers that may throw *)

Definition M (A : Type) : Type := Pjax → Completion A * Pjax.

Definition ret {A} (a : A) : M A := λ this, (Normal a, this).

Definition throw {A} (e : Error) : M A := λ this, (Throw e, this).

Definition bind {A B} (m : M A) (k : A → M B) : M B :=
  λ this,
    match m this with
    | (Normal a, this') => k a this'
    | (Throw e, this') => (Throw e, this')
    end.

Declare Scope pjax_scope.
Delimit Scope pjax_scope with pjax.
Notation "x <~ m ;; k" := (bind m (λ x, k))
  (at level 100, m at next level, right associativity) : pjax_scope.
Notation "m ;;; k" := (bind m (λ _, k))
  (at level 100, right associativity) : pjax_scope.
Local Open Scope pjax_scope.

Definition gets {A} (f : Pjax → A) : M A := λ this, (Normal (f this), this).

Definition emit (e : Effect) : M unit :=
  λ this,
    (Normal tt,
     {| state := state this;
        navigationRequestQueue := navigationRequestQueue this;
        effects := effects this ++ [e] |}).

Definition set_queue (q : list NavigaitonRequest) : M unit :=
  λ this,
    (Normal tt,
     {| state := state this; navigationRequestQueue := q; effects := effects this |}).

Definition set_activeRequestUid (uid : string) : M unit :=
  λ this,
    (Normal tt,
     {| state := {| activeRequestUid := Some uid |};
        navigationRequestQueue := navigationRequestQueue this;
        effects := effects this |}).

Definition lift {A} (c : Completion A) : M A := λ this, (c, this).

(** The property access [x.p] on a possibly null [x]. *)
Definition deref {A} (x : option A) (p : string) : M A :=
  match x with
  | Some a => ret a
  | None => throw (TypeError ("Cannot read property '" +:+ p +:+ "' of null"))
  end.

(** *** The queue *)

(** The first position of the queue whose request carries [requestId], with
    the request found there: the loop shared by the two methods below. *)
Definition find (requestId : string) (queue : list NavigaitonRequest)
  : option (nat * NavigaitonRequest) :=
  list_find (λ r, requestUid r = requestId) queue.

(** [removeNavigationRequest]: [splice(i, 1)] at the first match, then [break]. *)
Definition splice_first (requestId : string) (queue : list NavigaitonRequest)
  : list NavigaitonRequest :=
  match find requestId queue with
  | Some (i, _) => delete i queue
  | None => queue
  end.

Definition removeNavigationRequest (requestId : string) : M unit :=
  queue <~ gets navigationRequestQueue ;;
  set_queue (splice_first requestId queue).

(** [getNavigaitonRequest]: the request object is returned by reference, that
    is with its position in the queue; [null] when no request matches. *)
Definition getNavigaitonRequest (requestId : string) : M (option (nat * NavigaitonRequest)) :=
  queue <~ gets navigationRequestQueue ;;
  ret (find requestId queue).

(** *** Selectors and fragments *)

(** [`[pjax-id="${id}"]`], for an [id] free of quotes and backslashes. *)
Definition pjax_id_selector (id : string) : Selector :=
  {| within := None; compound := [attr_eq "pjax-id" id] |}.

(** ["main"] *)
Definition main_selector : Selector :=
  {| within := None; compound := [type_ "main"] |}.

Definition is_line_terminator (c : ascii) : bool :=
  let n := nat_of_ascii c in (n =? 10)%nat || (n =? 13)%nat.

Fixpoint line (s : string) : string :=
  match s with
  | String c r => if is_line_terminator c then "" else String c (line r)
  | EmptyString => ""
  end.

(** [url.match(/\#.*/g)]: [null] without a [#], else the matches, of which
    only the first is used: from the first [#] to the end of its line. *)
Fixpoint match_hash (url : string) : option string :=
  match url with
  | String c r =>
      if bool_decide (c = "#"%char) then Some (String c (line r)) else match_hash r
  | EmptyString => None
  end.

(** [m.replace("#", "")]: the first [#] is dropped. *)
Fixpoint replace_hash (m : string) : string :=
  match m with
  | String c r => if bool_decide (c = "#"%char) then r else String c (replace_hash r)
  | EmptyString => ""
  end.

(** *** Navigation *)

Section Methods.

(** The HTML parser: the detached document obtained from
    [createHTMLDocument] once [documentElement.innerHTML] is set. *)
Variable parseHTML : string → Document.

(** [navigate]; [uid] is the value [uuid()] returns in this call and
    [currentUrl] is [location.href]. *)
Definition navigate (uid : string) (url : string) (transition transitionData : option string)
    (history : HistoryMode) (targetEl : option string) (currentUrl : string) : M unit :=
  emit env_startPageTransition ;;;
  let requestUid := uid in
  set_activeRequestUid requestUid ;;;
  let navigationRequest :=
    {| body := None; title := None; url := url; history := history;
       requestUid := requestUid; transition := transition;
       transitionData := transitionData; targetSelector := targetEl |} in
  queue <~ gets navigationRequestQueue ;;
  set_queue (queue ++ [navigationRequest]) ;;;
  emit (worker_postMessage (worker_pjax requestUid url currentUrl)).

(** Lines 366-378 of [handlePjaxResponse]: the selector of the region and
    the current element it designates ([currentMain]). *)
Definition resolve_region (document : Document) (request : NavigaitonRequest)
  : Completion (Selector * option (nat * Element)) :=
  match targetSelector request with
  | Some target =>
      let selector := pjax_id_selector target in
      Normal (selector, body_querySelector selector document)
  | None =>
      let selector := main_selector in
      let currentMain := body_querySelector selector document in
      match currentMain with
      | None => Throw (TypeError "Cannot read property 'getAttribute' of null")
      | Some main =>
          let mainId := getAttribute "pjax-id" (snd main) in
          if truthy mainId
          then Normal (pjax_id_selector (to_string mainId), currentMain)
          else Normal (selector, currentMain)
      end
  end.

Definition fetch_failed (url : string) (error : option string) : string :=
  "Failed to fetch page: " +:+ url +:+ ". Server responded with: " +:+ to_string error.

(** [handlePjaxResponse]; [document] is the current document. *)
Definition handlePjaxResponse (document : Document)
    (requestId status url : string) (body error : option string) : M unit :=
  request <~ getNavigaitonRequest requestId ;;
  active <~ gets (λ this, activeRequestUid (state this)) ;;
  if bool_decide (Some requestId = active) then
    if bool_decide (status = "external") then
      emit (location_href url)
    else if bool_decide (status = "hash-change") then
      m <~ deref (match_hash url) "0" ;;
      emit (location_hash (replace_hash m))
    else if bool_decide (status = "ok") then
      let tempDocument := parseHTML (to_string body) in
      r <~ deref request "targetSelector" ;;
      region <~ lift (resolve_region document (snd r)) ;;
      let selector := fst region in
      let currentMain := snd region in
      let incomingMain := querySelector selector tempDocument in
      match incomingMain, currentMain with
      | Some incoming, Some _ =>
          emit (broadcaster_message "runtime" (parse (innerHTML (snd incoming)) requestId)) ;;;
          queue <~ gets navigationRequestQueue ;;
          set_queue
            (alter (set_body_title (innerHTML (snd incoming)) (DOM.title tempDocument))
                   (fst r) queue)
      | _, _ =>
          emit (console_error "Failed to find matching elements.") ;;;
          emit (location_href url)
      end
    else
      emit (console_error (fetch_failed url error)) ;;;
      emit (location_href url)
  else
    r <~ deref request "requestUid" ;;
    removeNavigationRequest (requestUid (snd r)) ;;;
    if bool_decide (status ≠ "ok")
    then emit (console_error (fetch_failed url error))
    else ret tt.

(** Lines 416-421 of [swapPjaxContent]. *)
Definition swap_selector (request : NavigaitonRequest) : Selector :=
  match targetSelector request with
  | Some target => pjax_id_selector target
  | None => main_selector
  end.

(** What the callback given to [then] does when the transition resolves. *)
Definition swapPjaxContent_then (selector : Selector) (request : NavigaitonRequest)
  : list Effect :=
  [ document_title (to_string (title request));
    broadcaster_message "pjax"
      (finalize_pjax (url request) (title request) (history request));
    broadcaster_message "runtime" mount_components;
    broadcaster_message "runtime" (mount_inline_scripts selector) ].

(** [swapPjaxContent] *)
Definition swapPjaxContent (requestUid_ : string) : M unit :=
  request <~ getNavigaitonRequest requestUid_ ;;
  r <~ deref request "requestUid" ;;
  active <~ gets (λ this, activeRequestUid (state this)) ;;
  (if bool_decide (Some (requestUid (snd r)) = active) then
     emit env_endPageTransition ;;;
     let selector := swap_selector (snd r) in
     emit (transitionManager selector (body (snd r)) (transition (snd r))
                             (transitionData (snd r)) (snd r))
   else ret tt) ;;;
  removeNavigationRequest (requestUid (snd r)).

(** *** The messages that drive a navigation

    [Load] is the [load] message of the inbox (with the identifier drawn
    by [uuid()] and the [location.href] of that moment), [PjaxResponse]
    the [pjax] message of the web worker (with the document of that
    moment), [CssReady] the [css-ready] message of the inbox. *)
Inductive Event : Type :=
| Load (uid url : string) (transition transitionData : option string)
       (history : option HistoryMode) (target : option string) (currentUrl : string)
| PjaxResponse (document : Document) (requestId status url : string)
               (body error : option string)
| CssReady (requestUid : string).

Definition handle (ev : Event) : M unit :=
  match ev with
  | Load uid url transition transitionData history target currentUrl =>
      navigate uid url transition transitionData (default push history) target currentUrl
  | PjaxResponse document requestId status url body error =>
      handlePjaxResponse document requestId status url body error
  | CssReady requestUid => swapPjaxContent requestUid
  end.

(** An error thrown by a handler ends that handler only: the instance
    stays as the handler left it and the next message is handled. *)
Definition dispatch (this : Pjax) (ev : Event) : Pjax := snd (handle ev this).

Definition run (evs : list Event) (this : Pjax) : Pjax := foldl dispatch this evs.

End Methods.

(** *** History *)

(** [updateHistory], on [window.history]. *)
Definition updateHistory (title url : string) (history : HistoryMode)
    (h : History.SessionHistory) : History.SessionHistory :=
  match history with
  | replace => History.replaceState {| History.url := url |} title url h
  | push => History.pushState {| History.url := url |} title url h
  end.

(** *** Links *)

(** ["a[href]:not([pjax-tracked]):not([no-pjax]):not([target]):not(.no-pjax)"] *)
Definition unregistered_links : Selector :=
  {| within := None;
     compound := [ type_ "a"; attr "href"; not_ (attr "pjax-tracked");
                   not_ (attr "no-pjax"); not_ (attr "target"); not_ (class_ "no-pjax") ] |}.

(** [this.handleLinkClick], the one bound listener of the instance. *)
Definition handleLinkClick : string := "handleLinkClick".

Definition track (link : Element) : Element :=
  addEventListener "click" handleLinkClick (setAttribute "pjax-tracked" "true" link).

(** [collectLinks], on [document]. *)
Definition collectLinks (document : Document) : Document :=
  let unregisteredLinks := body_querySelectorAll unregistered_links document in
  match unregisteredLinks with
  | [] => document
  | _ => foldl (λ doc link, update track (fst link) doc) document unregisteredLinks
  end.

(** ["a[href]:not([target]):not([pjax-prefetched]):not(prevent-pjax):not(no-transition)"],
    alone or below a [header] or a [nav]. *)
Definition prefetchable (within : option string) : Selector :=
  {| within := within;
     compound := [ type_ "a"; attr "href"; not_ (attr "target");
                   not_ (attr "pjax-prefetched"); not_ (type_ "prevent-pjax");
                   not_ (type_ "no-transition") ] |}.

#[global] Instance NetworkType_eq_dec : EqDecision Env.NetworkType.
Proof. solve_decision. Defined.

(** [links.map(link => { link.setAttribute("pjax-prefetched", "true"); urls.push(link.href) })] *)
Definition mark_and_collect (links : list (nat * Element)) (document : Document)
    (urls : list string) : Document * list string :=
  foldl (λ acc link,
           (update (setAttribute "pjax-prefetched" "true") (fst link) (fst acc),
            snd acc ++ [href (snd link)]))
        (document, urls) links.

(** [links.map(link => { link.setAttribute("pjax-prefetched", "true"); this.io.observe(link) })] *)
Definition mark_and_observe (links : list (nat * Element)) (document : Document)
    : Document * list Effect :=
  foldl (λ acc link,
           (update (setAttribute "pjax-prefetched" "true") (fst link) (fst acc),
            snd acc ++ [io_observe (fst link)]))
        (document, []) links.

(** [prefetchLinks]; [serviceWorker_in_navigator] is ["serviceWorker" in navigator]. *)
Definition prefetchLinks (env : Env.Env) (serviceWorker_in_navigator : bool)
    (document : Document) : Document * list Effect :=
  if bool_decide (Env.connection env = Env._2g)
     || bool_decide (Env.connection env = Env.slow_2g)
     || negb serviceWorker_in_navigator
     || Env.dataSaver env
  then (document, [])
  else
    let urls : list string := [] in
    let headerLinks := body_querySelectorAll (prefetchable (Some "header")) document in
    let '(document, urls) := mark_and_collect headerLinks document urls in
    let navLinks := body_querySelectorAll (prefetchable (Some "nav")) document in
    let '(document, urls) := mark_and_collect navLinks document urls in
    let posted := [worker_postMessage (worker_prefetch urls)] in
    if bool_decide (Env.connection env = Env._3g)
    then (document, posted)
    else
      let allLinks := body_querySelectorAll (prefetchable None) document in
      let '(document, observed) := mark_and_observe allLinks document in
      (document, posted ++ observed).

(** *** Messages of the service worker *)

Record Storage : Type := {
  sessionStorage : gmap string string;
  localStorage : gmap string string;
}.

Inductive ServiceWorkerEvent : Type :=
| page_refresh
| cachebust (max contentCacheExpires : Z)
| undefined_type (type : string).

(** Lines 177-184: the prompt budget. *)
Definition cachebust_prompts (max : Z) (session : gmap string string)
    : gmap string string * list Effect :=
  let session := <["maxPrompts" := pretty max]> session in
  let currentPromptCount := session !! "prompts" in
  if JS.ge (parseInt currentPromptCount) (Some max)
  then (<["prompts" := "0"]> session, [serviceWorker_postMessage sw_clear_content_cache])
  else (session, []).

(** Lines 185-193: the age of the content cache; [now] and [now'] are the
    two readings of [Date.now()]. *)
Definition cachebust_expiry (contentCacheExpires now now' : Z) (local : gmap string string)
    : gmap string string * list Effect :=
  let contentCacheTimestap := parseInt (local !! "contentCache") in
  let difference := (λ t, now - t)%Z <$> contentCacheTimestap in
  let neededDifference := (contentCacheExpires * 24 * 60 * 60 * 1000)%Z in
  if JS.ge difference (Some neededDifference)
  then (<["contentCache" := pretty now']> local, [serviceWorker_postMessage sw_clear_content_cache])
  else (local, []).

Definition reload_prompt : string := "A new version of this page is available.".

(** [handleServiceWorkerMessage] *)
Definition handleServiceWorkerMessage (debug : bool) (now now' : Z) (e : ServiceWorkerEvent)
    (storage : Storage) : Storage * list Effect :=
  match e with
  | page_refresh =>
      let promptCount := parseInt (sessionStorage storage !! "prompts") in
      let promptCount := (λ n, n + 1)%Z <$> promptCount in
      ({| sessionStorage := <["prompts" := number_to_string promptCount]> (sessionStorage storage);
          localStorage := localStorage storage |},
       [notify reload_prompt])
  | cachebust max contentCacheExpires =>
      let '(session, out) := cachebust_prompts max (sessionStorage storage) in
      let '(local, out') := cachebust_expiry contentCacheExpires now now' (localStorage storage) in
      ({| sessionStorage := session; localStorage := local |}, out ++ out')
  | undefined_type type =>
      (storage,
       if debug
       then [console_error ("Undefined Service Worker response message type: " +:+ type)]
       else [])
  end.

End Pjax.

(** ** Notions used to state the properties *)

Module Trace.

Import DOM Pjax.

(** The identifiers carried by the requests of a queue, in order. *)
Definition uids (queue : list NavigaitonRequest) : list string := requestUid <$> queue.

(** How many requests of the queue carry [uid]. *)
Definition count (uid : string) (queue : list NavigaitonRequest) : nat :=
  length (filter (λ x, x = uid) (uids queue)).

(** The identifier issued by a message, if it is a [load]. *)
Definition issued (ev : Event) : option string :=
  match ev with
  | Load uid _ _ _ _ _ _ => Some uid
  | _ => None
  end.

(** The most recently issued identifier of a sequence of messages. *)
Definition last_issued (evs : list Event) : option string :=
  foldl (λ acc ev, match issued ev with Some uid => Some uid | None => acc end) None evs.

(** How many [load]s of the sequence issued [uid]. *)
Definition loads (uid : string) (evs : list Event) : nat :=
  length (filter (λ ev, issued ev = Some uid) evs).

(** The identifier a reply or a [css-ready] message refers to. *)
Definition mentioned (ev : Event) : option string :=
  match ev with
  | Load _ _ _ _ _ _ _ => None
  | PjaxResponse _ requestId _ _ _ _ => Some requestId
  | CssReady requestUid => Some requestUid
  end.

(** [uid] was issued and no reply or [css-ready] message has referred to it. *)
Definition pending (uid : string) (evs : list Event) : Prop :=
  Some uid ∈ issued <$> evs ∧ Some uid ∉ mentioned <$> evs.

(** What the reply to the active request appends to the log. *)
Definition no_swap (e : Effect) : Prop :=
  match e with
  | console_error _ | location_href _ | location_hash _
  | broadcaster_message "runtime" (parse _ _) => True
  | _ => False
  end.

Section Runs.

Variable parseHTML : string → Document.

(** What handling [ev] appends to the log. *)
Definition emitted (this : Pjax) (ev : Event) : list Effect :=
  drop (length (effects this)) (effects (dispatch parseHTML this ev)).

(** How many requests carrying [uid] the handling of [ev] takes out of the queue. *)
Definition removed_by (uid : string) (this : Pjax) (ev : Event) : nat :=
  count uid (navigationRequestQueue this)
  - count uid (navigationRequestQueue (dispatch parseHTML this ev)).

(** The same, summed over the handling of a sequence of messages. *)
Fixpoint removals (uid : string) (evs : list Event) (this : Pjax) : nat :=
  match evs with
  | [] => 0
  | ev :: evs' => removed_by uid this ev + removals uid evs' (dispatch parseHTML this ev)
  end.

End Runs.

End Trace.

(** An anchor [hijack-links] has to intercept, in the words of the
    specification: an anchor of the body with an [href], not yet tracked, not
    excluded by the [no-pjax] attribute or class, and without a [target]. *)
Definition eligible (e : DOM.Element) : bool :=
  bool_decide (DOM.tagName e = "a")
  && DOM.inBody e
  && bool_decide (is_Some (DOM.getAttribute "href" e))
  && negb (bool_decide (is_Some (DOM.getAttribute "pjax-tracked" e)))
  && negb (bool_decide (is_Some (DOM.getAttribute "no-pjax" e)))
  && negb (bool_decide ("no-pjax" ∈ DOM.classList e))
  && negb (bool_decide (is_Some (DOM.getAttribute "target" e))).

(** The click interceptors attached to an element. *)
Definition interceptors (e : DOM.Element) : nat :=
  length (filter (λ l, l = ("click", Pjax.handleLinkClick)) (DOM.listeners e)).

(** ** A site to run the coordinator on *)

Module Sample.

Import DOM.

Definition element (tag : string) (attrs : list (string * string)) (classes : list string)
    (above : list string) (inner url : string) : Element :=
  {| tagName := tag; attributes := list_to_map attrs; classList := classes;
     ancestors := above; innerHTML := inner; href := url; listeners := [] |}.

(** The page the visitor is on: two links in the header, and a primary
    region named [content] that holds an excluded link and a plain one. *)
Definition home : Document :=
  {| title := "Home";
     elements :=
       [ element "html" [] [] [] "" "";
         element "body" [] [] ["html"] "" "";
         element "header" [] [] ["body"; "html"] "" "";
         element "a" [("href", "/about")] [] ["header"; "body"; "html"] "About" "https://djinnjs.test/about";
         element "a" [("href", "/out"); ("target", "_blank")] [] ["header"; "body"; "html"] "Out" "https://elsewhere.test/out";
         element "main" [("pjax-id", "content")] [] ["body"; "html"] "OLD" "";
         element "a" [("href", "/legal")] ["no-pjax"] ["main"; "body"; "html"] "Legal" "https://djinnjs.test/legal";
         element "a" [("href", "/news")] [] ["main"; "body"; "html"] "News" "https://djinnjs.test/news" ] |}.

(** The page behind [/about]. *)
Definition about : Document :=
  {| title := "About";
     elements :=
       [ element "html" [] [] [] "" "";
         element "body" [] [] ["html"] "" "";
         element "main" [("pjax-id", "content")] [] ["body"; "html"] "NEW" "" ] |}.

(** A page without the region. *)
Definition bare : Document :=
  {| title := "Bare";
     elements :=
       [ element "html" [] [] [] "" "";
         element "body" [] [] ["html"] "" "";
         element "article" [] [] ["body"; "html"] "TEXT" "" ] |}.

(** A parser that knows two bodies. *)
Definition parseHTML (body : string) : Document :=
  if bool_decide (body = "<main pjax-id=content>NEW</main>") then about else bare.

Definition about_body : string := "<main pjax-id=content>NEW</main>".

(** The request a click on the [/about] link creates. *)
Definition click_about : Pjax.NavigaitonRequest :=
  {| Pjax.body := None; Pjax.title := None; Pjax.url := "/about";
     Pjax.history := Pjax.push; Pjax.requestUid := "A";
     Pjax.transition := Some "fade"; Pjax.transitionData := None;
     Pjax.targetSelector := None |}.

(** The session history of a visitor who went from the home page to
    [/about] and then one step back: the current entry is the first of two. *)
Definition went_back : History.SessionHistory :=
  {| History.entries :=
       [ {| History.entry_state := Some {| History.url := "https://djinnjs.test/" |};
            History.entry_title := "Home"; History.entry_url := "https://djinnjs.test/" |};
         {| History.entry_state := Some {| History.url := "/about" |};
            History.entry_title := "About"; History.entry_url := "/about" |} ];
     History.current := 0 |}.

(** The storage of a session that has shown three reload prompts, with a
    content cache stamped at time 0. *)
Definition three_prompts : Pjax.Storage :=
  {| Pjax.sessionStorage := {[ "prompts" := "3" ]};
     Pjax.localStorage := {[ "contentCache" := "0" ]} |}.

End Sample.

(** ** The loading states of [env.ts] *)

Module Loading.

(** [type DOMState] *)
Inductive DOMState : Type :=
| soft_loading | hard_loading | idling | page_loading | page_loading_complete.

Definition name (s : DOMState) : string :=
  match s with
  | soft_loading => "soft-loading"
  | hard_loading => "hard-loading"
  | idling => "idling"
  | page_loading => "page-loading"
  | page_loading_complete => "page-loading-complete"
  end.

#[global] Instance DOMState_eq_dec : EqDecision DOMState.
Proof. solve_decision. Defined.

(** The fields of the [Env] object its loading methods use, and the [state]
    attribute of the document element they write. *)
Record Env : Type := {
  isDebug : bool;
  domState : DOMState;
  _tickets : list string;
  state_attribute : option string;
}.

(** The object the constructor builds: [hard-loading], no ticket; the
    attribute is whatever the page was served with. *)
Definition new (debug : bool) (served : option string) : Env :=
  {| isDebug := debug; domState := hard_loading; _tickets := []; state_attribute := served |}.

(** [this.domState = s; document.documentElement.setAttribute("state", this.domState)] *)
Definition set_state (s : DOMState) (env : Env) : Env :=
  {| isDebug := isDebug env; domState := s; _tickets := _tickets env;
     state_attribute := Some (name s) |}.

Definition set_tickets (tickets : list string) (env : Env) : Env :=
  {| isDebug := isDebug env; domState := domState env; _tickets := tickets;
     state_attribute := state_attribute env |}.

(** The loop of [stopLoading]: [splice(i, 1)] at the first equal ticket, then [break]. *)
Fixpoint remove_ticket (ticket : string) (tickets : list string) : list string :=
  match tickets with
  | [] => []
  | t :: rest => if decide (t = ticket) then rest else t :: remove_ticket ticket rest
  end.

Definition ticket_required : string :=
  "A ticket with the typeof 'string' is required to end the loading state.".

(** [stopLoading(ticket)]; [None] is a ticket that is not a string. The
    result carries what was written to the console. *)
Definition stopLoading (ticket : option string) (env : Env) : Env * list string :=
  if (negb (truthy ticket) && isDebug env)
     || (negb (bool_decide (is_Some ticket)) && isDebug env)
  then (env, [ticket_required])
  else
    let env :=
      match ticket with
      | Some t => set_tickets (remove_ticket t (_tickets env)) env
      | None => env
      end in
    if bool_decide (length (_tickets env) = 0) && negb (bool_decide (domState env = hard_loading))
    then (set_state idling env, [])
    else (env, []).

(** [startLoading()]; [uid] is what [this.uuid()] returns in this call, and
    is the ticket returned. *)
Definition startLoading (uid : string) (env : Env) : Env * string :=
  let env :=
    if negb (bool_decide (domState env = hard_loading))
    then set_state soft_loading env
    else env in
  let ticket := uid in
  (set_tickets (_tickets env ++ [ticket]) env, ticket).

Definition startPageTransition (env : Env) : Env := set_state page_loading env.

(** [endPageTransition()] up to the [setTimeout]. *)
Definition endPageTransition (env : Env) : Env := set_state page_loading_complete env.

(** The callback [endPageTransition] hands to [setTimeout], 600 ms later. *)
Definition endPageTransition_timeout (env : Env) : Env :=
  if negb (bool_decide (length (_tickets env) = 0))
  then set_state soft_loading env
  else set_state idling env.

Definition setDOMState (newState : DOMState) (env : Env) : Env := set_state newState env.

(** The calls the rest of the framework makes on the object. *)
Inductive Call : Type :=
| StartLoading (uid : string)
| StopLoading (ticket : option string)
| StartPageTransition
| EndPageTransition
| Timeout
| SetDOMState (newState : DOMState).

Definition call (env : Env) (c : Call) : Env :=
  match c with
  | StartLoading uid => fst (startLoading uid env)
  | StopLoading ticket => fst (stopLoading ticket env)
  | StartPageTransition => startPageTransition env
  | EndPageTransition => endPageTransition env
  | Timeout => endPageTransition_timeout env
  | SetDOMState s => setDOMState s env
  end.

Definition calls (cs : list Call) (env : Env) : Env := foldl call env cs.


End Loading.

(** ** The transition manager of [transition-manager.ts] *)

Module Transition.

(** The three transitions the manager imports. *)
Inductive Transition : Type := slide | fade | none.

(** A call [effect(selector, newHTML, transitionData)]. *)
Record Call : Type := {
  effect : Transition;
  selector : DOM.Selector;
  newHTML : option string;
  transitionData : option string;
}.

(** [`${transition}`] for [transition : string | null]. *)
Definition null_to_string (x : option string) : string :=
  match x with Some s => s | None => "null" end.

(** [transitionManager]; [defaultTransition] is the constant of [config].
    The promise resolves when the promise of the call made resolves. *)
Definition transitionManager (connection : Env.NetworkType) (debug : bool)
    (defaultTransition : string) (selector : DOM.Selector) (newHTML transition transitionData : option string)
    : Call * list string :=
  let run t := {| effect := t; selector := selector; newHTML := newHTML;
                  transitionData := transitionData |} in
  if bool_decide (connection = Env._2g) || bool_decide (connection = Env.slow_2g)
  then (run none, [])
  else
    let transitionEffect :=
      match transition with
      | Some t => if bool_decide (t = "") then defaultTransition else t
      | None => defaultTransition
      end in
    if bool_decide (transitionEffect = "slide") then (run slide, [])
    else if bool_decide (transitionEffect = "fade") then (run fade, [])
    else if bool_decide (transitionEffect = "none") then (run none, [])
    else (run none,
          if debug
          then ["Undefined transition handle: " +:+ null_to_string transition]
          else []).

End Transition.

(** ** The rest of the [Pjax] class *)

Module Coordinator.

Import DOM.

(** [new RegExp("#").test(url)] *)
Fixpoint has_hash (url : string) : bool :=
  match url with
  | String c r => bool_decide (c = "#"%char) || has_hash r
  | EmptyString => false
  end.

(** [`a[name="${name}"]`], for a [name] free of quotes and backslashes. *)
Definition named_anchor (name : string) : Selector :=
  {| within := None; compound := [type_ "a"; attr_eq "name" name] |}.

(** [scrollToAnchor]: the anchor scrolled into view, if there is one. *)
Definition scrollToAnchor (url : string) (document : Document) : Completion (option nat) :=
  match Pjax.match_hash url with
  | None => Throw (TypeError "Cannot read property '0' of null")
  | Some m =>
      let anchor := body_querySelector (named_anchor (Pjax.replace_hash m)) document in
      Normal (fst <$> anchor)
  end.

(** The data of a [load] message on the bus. *)
Record LoadMessage : Type := {
  load_url : string;
  load_transition : option string;
  load_transitionData : option string;
  load_history : option Pjax.HistoryMode;
  load_target : option string;
}.

(** [hijackPopstate]: the message broadcast, if any; [state] is [e.state]. *)
Definition hijackPopstate (state : option History.State) : option LoadMessage :=
  match state with
  | Some st =>
      if truthy (Some (History.url st))
      then Some {| load_url := History.url st; load_transition := None;
                   load_transitionData := None; load_history := Some Pjax.replace;
                   load_target := None |}
      else None
  | None => None
  end.

(** [hijackRequest]: the message broadcast for a click on [target]. *)
Definition hijackRequest (target : Element) : LoadMessage :=
  {| load_url := href target;
     load_transition := getAttribute "pjax-transition" target;
     load_transitionData := getAttribute "pjax-transition-data" target;
     load_history := None;
     load_target := getAttribute "pjax-view-id" target |}.

(** The [load] case of the inbox, as a message of a run. *)
Definition inbox_load (uid currentUrl : string) (data : LoadMessage) : Pjax.Event :=
  Pjax.Load uid (load_url data) (load_transition data) (load_transitionData data)
            (load_history data) (load_target data) currentUrl.

(** Lines 47-53 of [init]; [now] is [Date.now()]. *)
Definition init_storage (now : Z) (storage : Pjax.Storage) : Pjax.Storage :=
  let session := Pjax.sessionStorage storage in
  let session :=
    if negb (truthy (session !! "prompts")) then <["prompts" := "0"]> session else session in
  let local := Pjax.localStorage storage in
  let local :=
    if negb (truthy (local !! "contentCache"))
    then <["contentCache" := pretty now]> local else local in
  {| Pjax.sessionStorage := session; Pjax.localStorage := local |}.

(** Line 94 of [init]; [href] is [window.location.href]. *)
Definition init_history (href title : string) (h : History.SessionHistory)
  : History.SessionHistory :=
  History.replaceState {| History.url := href |} title href h.

(** [checkPageRevision]; [href] is [window.location.href]. *)
Definition checkPageRevision (href : string) : Pjax.Effect :=
  Pjax.worker_postMessage (Pjax.worker_revision_check href).

(** The messages of the Pjax web worker. *)
Inductive WorkerEvent : Type :=
| revision_check (status url : string)
| pjax (requestId status url : string) (body error : option string)
| undefined_type (type : string).

(** [handleWorkerMessage]; [serviceWorker] tells whether [this.serviceWorker]
    has been set, which [init] does only once a registered service worker
    controls the page. *)
Definition handleWorkerMessage (parseHTML : string → Document) (debug : bool)
    (connection : Env.NetworkType) (serviceWorker : bool) (document : Document)
    (e : WorkerEvent) : Pjax.M unit :=
  match e with
  | revision_check status url =>
      if bool_decide (status = "stale")
      then
        if serviceWorker
        then Pjax.emit (Pjax.serviceWorker_postMessage (Pjax.sw_page_refresh url connection))
        else Pjax.throw (TypeError "Cannot read property 'postMessage' of null")
      else Pjax.ret tt
  | pjax requestId status url body error =>
      Pjax.handlePjaxResponse parseHTML document requestId status url body error
  | undefined_type type =>
      if debug
      then Pjax.emit (Pjax.console_error
                        ("Undefined Pjax Worker response message type: " +:+ type))
      else Pjax.ret tt
  end.

(** An entry handed to the callback of the intersection observer. *)
Record IntersectionObserverEntry : Type := {
  isIntersecting : bool;
  target : nat * Element;
}.

(** [prefetchLink]: the links it unobserves, and what it posts. *)
Definition prefetchLink (links : list IntersectionObserverEntry) : list nat * list Pjax.Effect :=
  let '(unobserved, urls) :=
    foldl (λ acc entry,
             if isIntersecting entry
             then (fst acc ++ [fst (target entry)], snd acc ++ [href (snd (target entry))])
             else acc)
          ([], []) links in
  (unobserved,
   match urls with
   | [] => []
   | _ => [Pjax.worker_postMessage (Pjax.worker_prefetch urls)]
   end).

(** What the [finalize-pjax] case of the inbox touches. *)
Record Page : Type := {
  window_history : History.SessionHistory;
  page_document : Document;
}.

Inductive Output : Type :=
| effect (e : Pjax.Effect)
| scrollIntoView (anchor : nat)
| sendPageView (pathname : string).

(** The [finalize-pjax] case of the inbox; [href] and [pathname] are those of
    [window.location] once the history is updated. *)
Definition finalize_pjax (disablePrefetching : bool) (env : Env.Env)
    (serviceWorker_in_navigator : bool) (href pathname : string)
    (title : option string) (url : string) (history : Pjax.HistoryMode) (page : Page)
  : Completion unit * Page * list Output :=
  let h := Pjax.updateHistory (to_string title) url history (window_history page) in
  let scrolled :=
    if has_hash url then scrollToAnchor url (page_document page) else Normal None in
  match scrolled with
  | Throw e => (Throw e, {| window_history := h; page_document := page_document page |}, [])
  | Normal anchor =>
      let out := match anchor with Some a => [scrollIntoView a] | None => [] end in
      let document := Pjax.collectLinks (page_document page) in
      let out := out ++ [effect (checkPageRevision href); sendPageView pathname] in
      let '(document, out) :=
        if negb disablePrefetching
        then let '(document, posted) :=
               Pjax.prefetchLinks env serviceWorker_in_navigator document in
             (document, out ++ (effect <$> posted))
        else (document, out) in
      (Normal tt,
       {| window_history := h; page_document := document |},
       out ++ [effect (Pjax.broadcaster_message "pjax" Pjax.completed)])
  end.

(** [updateHistory] called for one [finalize-pjax] message after the other,
    each with its title, URL and history mode. *)
Definition commits (finalized : list (string * string * Pjax.HistoryMode))
    (h : History.SessionHistory) : History.SessionHistory :=
  foldl (λ h c, Pjax.updateHistory (fst (fst c)) (snd (fst c)) (snd c) h) h finalized.

(** [ev] is a reply of the web worker for [uid] with status [ok]. *)
Definition ok_reply_for (uid : string) (ev : Pjax.Event) : Prop :=
  match ev with
  | Pjax.PjaxResponse _ requestId status _ _ _ => requestId = uid ∧ status = "ok"
  | _ => False
  end.

(** The request [r] carries what the [load] message [ev] asked for. *)
Definition loaded_by (r : Pjax.NavigaitonRequest) (ev : Pjax.Event) : Prop :=
  match ev with
  | Pjax.Load uid url transition transitionData history target _ =>
      Pjax.requestUid r = uid
      ∧ Pjax.url r = url
      ∧ Pjax.history r = default Pjax.push history
      ∧ Pjax.transition r = transition
      ∧ Pjax.transitionData r = transitionData
      ∧ Pjax.targetSelector r = target
  | _ => False
  end.

(** A call of the transition manager hands over what its request holds,
    and the request is one that [evs] loaded. *)
Definition swap_of (evs : list Pjax.Event) (e : Pjax.Effect) : Prop :=
  match e with
  | Pjax.transitionManager selector newHTML transition transitionData r =>
      Exists (loaded_by r) evs
      ∧ selector = Pjax.swap_selector r
      ∧ newHTML = Pjax.body r
      ∧ transition = Pjax.transition r
      ∧ transitionData = Pjax.transitionData r
  | _ => True
  end.

(** The messages of the service worker, one after the other, each with
    the two readings of [Date.now()] its handler makes. *)
Definition serviceWorkerMessages (debug : bool)
    (messages : list (Z * Z * Pjax.ServiceWorkerEvent)) (storage : Pjax.Storage)
  : Pjax.Storage * list Pjax.Effect :=
  foldl (λ acc m,
           let result :=
             Pjax.handleServiceWorkerMessage debug (fst (fst m)) (snd (fst m)) (snd m)
                                             (fst acc) in
           (fst result, snd acc ++ snd result))
        (storage, []) messages.

End Coordinator.

(** * Properties *)

Import DOM Pjax Trace.
Local Open Scope pjax_scope.

(** ** The request queue *)

Section Queue.

Implicit Types (queue : list NavigaitonRequest) (requestId : string).

Lemma find_Some requestId queue i r :
  find requestId queue = Some (i, r) →
  queue = take i queue ++ r :: drop (S i) queue
  ∧ requestUid r = requestId
  ∧ Forall (λ x, requestUid x ≠ requestId) (take i queue)
  ∧ length (take i queue) = i.
Proof.
  unfold find. intros H. apply list_find_Some in H as (Hi & Hr & Hfirst).
  split; [by rewrite take_drop_middle|].
  split; [done|].
  split.
  - apply Forall_forall. intros x Hx.
    apply list_elem_of_lookup in Hx as [j Hj].
    pose proof (lookup_lt_Some _ _ _ Hj) as Hlt. rewrite length_take in Hlt.
    rewrite lookup_take_lt in Hj by lia.
    apply (Hfirst j x Hj). lia.
  - rewrite length_take. apply lookup_lt_Some in Hi. lia.
Qed.

Lemma find_None requestId queue :
  find requestId queue = None ↔ requestId ∉ uids queue.
Proof.
  unfold find, uids. rewrite list_find_None, Forall_forall. split.
  - intros H Hin. apply list_elem_of_fmap in Hin as (r & -> & Hr). by apply (H r).
  - intros H r Hr Heq. apply H. apply list_elem_of_fmap. eauto.
Qed.

Lemma splice_first_found requestId queue i r :
  find requestId queue = Some (i, r) →
  splice_first requestId queue = take i queue ++ drop (S i) queue.
Proof. intros H. unfold splice_first. rewrite H. apply delete_take_drop. Qed.

Lemma splice_first_absent requestId queue :
  find requestId queue = None → splice_first requestId queue = queue.
Proof. intros H. unfold splice_first. by rewrite H. Qed.

End Queue.

(** C10. On every instance and for every identifier, [removeNavigationRequest]
    returns normally, touches nothing but the queue, and either no request
    carries the identifier and the queue is unchanged, or the queue was
    [before ++ r :: after] with [r] the first request carrying the identifier
    and becomes [before ++ after]. [getNavigaitonRequest] returns normally,
    leaves the instance as it is, and answers [null] exactly when no request
    carries the identifier, and otherwise the first request carrying it. *)
Theorem queue_operations_frame (requestId : string) (this : Pjax) :
  let queue := navigationRequestQueue this in
  (∃ this',
      removeNavigationRequest requestId this = (Normal tt, this')
      ∧ state this' = state this
      ∧ effects this' = effects this
      ∧ (((requestId ∉ uids queue) ∧ navigationRequestQueue this' = queue)
         ∨ (∃ before r after,
               queue = before ++ r :: after
               ∧ requestUid r = requestId
               ∧ (requestId ∉ uids before)
               ∧ navigationRequestQueue this' = before ++ after)))
  ∧ (∃ result,
        getNavigaitonRequest requestId this = (Normal result, this)
        ∧ ((result = None ∧ requestId ∉ uids queue)
           ∨ (∃ before r after,
                 result = Some (length before, r)
                 ∧ queue = before ++ r :: after
                 ∧ requestUid r = requestId
                 ∧ requestId ∉ uids before))).
Proof.
  intros queue. subst queue.
  assert (Hpre : ∀ i, Forall (λ x, requestUid x ≠ requestId) (take i (navigationRequestQueue this))
                      → requestId ∉ uids (take i (navigationRequestQueue this))).
  { intros i HF Hin. apply list_elem_of_fmap in Hin as (x & -> & Hx).
    rewrite Forall_forall in HF. by apply (HF x). }
  split.
  - eexists. split; [reflexivity|]. simpl. split; [done|]. split; [done|].
    destruct (find requestId (navigationRequestQueue this)) as [[i r]|] eqn:Hf.
    + right. pose proof (find_Some _ _ _ _ Hf) as (Hq & Hr & HF & _).
      exists (take i (navigationRequestQueue this)), r, (drop (S i) (navigationRequestQueue this)).
      split; [done|]. split; [done|]. split; [by apply Hpre|].
      by apply (splice_first_found _ _ _ _ Hf).
    + left. split; [by apply find_None|]. by apply splice_first_absent.
  - eexists. split; [reflexivity|].
    destruct (find requestId (navigationRequestQueue this)) as [[i r]|] eqn:Hf.
    + right. pose proof (find_Some _ _ _ _ Hf) as (Hq & Hr & HF & Hlen).
      exists (take i (navigationRequestQueue this)), r, (drop (S i) (navigationRequestQueue this)).
      rewrite Hlen. split; [done|]. split; [done|]. split; [done|]. by apply Hpre.
    + left. split; [done|]. by apply find_None.
Qed.

(** ** One message at a time *)

Section Steps.

Variable parseHTML : string → Document.

Implicit Types (this : Pjax) (ev : Event).

Ltac unfold_handler :=
  unfold handle, handlePjaxResponse, swapPjaxContent, navigate,
    removeNavigationRequest, getNavigaitonRequest, bind, gets, ret, throw,
    emit, set_queue, set_activeRequestUid, deref, lift; simpl.

(** A reply to a request that is not the active one. *)
Lemma handlePjaxResponse_stale this document requestId status url body error :
  activeRequestUid (state this) ≠ Some requestId →
  handlePjaxResponse parseHTML document requestId status url body error this =
  match find requestId (navigationRequestQueue this) with
  | None => (Throw (TypeError "Cannot read property 'requestUid' of null"), this)
  | Some _ =>
      (Normal tt,
       {| state := state this;
          navigationRequestQueue := splice_first requestId (navigationRequestQueue this);
          effects := effects this
                     ++ (if bool_decide (status ≠ "ok")
                         then [console_error (fetch_failed url error)] else []) |})
  end.
Proof.
  intros Hstale. unfold_handler.
  rewrite bool_decide_eq_false_2 by congruence.
  destruct (find requestId (navigationRequestQueue this)) as [[i r]|] eqn:Hf; simpl.
  - apply find_Some in Hf as (_ & -> & _).
    case_bool_decide; simpl; [done|]. by rewrite app_nil_r.
  - by destruct this.
Qed.

(** A [css-ready] message. *)
Lemma swapPjaxContent_spec this requestUid_ :
  swapPjaxContent requestUid_ this =
  match find requestUid_ (navigationRequestQueue this) with
  | None => (Throw (TypeError "Cannot read property 'requestUid' of null"), this)
  | Some (_, r) =>
      (Normal tt,
       {| state := state this;
          navigationRequestQueue := splice_first requestUid_ (navigationRequestQueue this);
          effects := effects this
                     ++ (if bool_decide (Some requestUid_ = activeRequestUid (state this))
                         then [ env_endPageTransition;
                                transitionManager (swap_selector r) (body r) (transition r)
                                                  (transitionData r) r ]
                         else []) |})
  end.
Proof.
  unfold_handler.
  destruct (find requestUid_ (navigationRequestQueue this)) as [[i r]|] eqn:Hf; simpl.
  - apply find_Some in Hf as (_ & -> & _).
    case_bool_decide; simpl.
    + by rewrite <- app_assoc.
    + by rewrite app_nil_r.
  - by destruct this.
Qed.

(** A [load] message. *)
Lemma navigate_spec this uid url transition transitionData history targetEl currentUrl :
  navigate uid url transition transitionData history targetEl currentUrl this =
  (Normal tt,
   {| state := {| activeRequestUid := Some uid |};
      navigationRequestQueue :=
        navigationRequestQueue this
        ++ [{| body := None; title := None; url := url; history := history;
               requestUid := uid; transition := transition;
               transitionData := transitionData; targetSelector := targetEl |}];
      effects := effects this
                 ++ [env_startPageTransition;
                     worker_postMessage (worker_pjax uid url currentUrl)] |}).
Proof. unfold_handler. by rewrite <- app_assoc. Qed.

(** A reply to the active request: the active identifier stays, no request
    enters or leaves the queue, and the transition manager is not called. *)
Lemma handlePjaxResponse_active this document requestId status url body error :
  activeRequestUid (state this) = Some requestId →
  ∃ c this' new,
    handlePjaxResponse parseHTML document requestId status url body error this = (c, this')
    ∧ state this' = state this
    ∧ uids (navigationRequestQueue this') = uids (navigationRequestQueue this)
    ∧ effects this' = effects this ++ new
    ∧ Forall no_swap new
    ∧ (Exists (λ e, is_parse e = true) new → status = "ok").
Proof.
  intros Hactive. unfold_handler. rewrite Hactive.
  rewrite bool_decide_eq_true_2 by done.
  assert (Hparse : ∀ new : list Effect,
             Forall (λ e, is_parse e = false) new →
             Exists (λ e, is_parse e = true) new → status = "ok").
  { intros new HF HE. apply Exists_exists in HE as (e & He & Hp).
    rewrite Forall_forall in HF. specialize (HF e He). congruence. }
  assert (Huids : ∀ i f (queue : list NavigaitonRequest),
             (∀ r, requestUid (f r) = requestUid r) →
             uids (alter f i queue) = uids queue).
  { intros i f queue Hf. unfold uids. apply list_eq. intros j.
    rewrite list_lookup_fmap, list_lookup_alter, list_lookup_fmap.
    case_decide; [subst j|done].
    destruct (queue !! i); simpl; [by rewrite Hf|done]. }
  repeat case_bool_decide; simpl.
  - eexists _, _, [_]. repeat split; try done; [by repeat constructor|].
    apply Hparse. by repeat constructor.
  - destruct (match_hash url); simpl.
    + eexists _, _, [_]. repeat split; try done; [by repeat constructor|].
      apply Hparse. by repeat constructor.
    + eexists _, _, []. rewrite app_nil_r. repeat split; try done.
      apply Hparse. by repeat constructor.
  - destruct (find requestId (navigationRequestQueue this)) as [[i r]|] eqn:Hf; simpl.
    2:{ eexists _, _, []. rewrite app_nil_r. repeat split; done. }
    destruct (resolve_region document r) as [[selector currentMain]|e]; simpl.
    2:{ eexists _, _, []. rewrite app_nil_r. repeat split; done. }
    destruct (querySelector selector _) as [incoming|], currentMain as [current|]; simpl.
    + eexists _, _, [_]. repeat split; try done; [by apply Huids|by repeat constructor].
    + eexists _, _, [_; _]. rewrite <- app_assoc. repeat split; try done. by repeat constructor.
    + eexists _, _, [_; _]. rewrite <- app_assoc. repeat split; try done. by repeat constructor.
    + eexists _, _, [_; _]. rewrite <- app_assoc. repeat split; try done. by repeat constructor.
  - eexists _, _, [_; _]. rewrite <- app_assoc. repeat split; try done; [by repeat constructor|].
    apply Hparse. by repeat constructor.
Qed.

End Steps.

(** ** Sequences of messages *)

Section Runs.

Variable parseHTML : string → Document.

Implicit Types (this : Pjax) (ev : Event) (evs : list Event) (uid : string).

(** What a message does, by kind of message. *)
Lemma dispatch_spec this ev :
  let this' := dispatch parseHTML this ev in
  let queue := navigationRequestQueue this in
  let active := activeRequestUid (state this) in
  ∃ new,
    effects this' = effects this ++ new
    ∧ match ev with
      | Load uid url transition transitionData history target currentUrl =>
          activeRequestUid (state this') = Some uid
          ∧ uids (navigationRequestQueue this') = uids queue ++ [uid]
          ∧ new = [env_startPageTransition; worker_postMessage (worker_pjax uid url currentUrl)]
      | PjaxResponse document requestId status url body error =>
          state this' = state this
          ∧ if bool_decide (active = Some requestId)
            then uids (navigationRequestQueue this') = uids queue
                 ∧ Forall no_swap new
                 ∧ (Exists (λ e, is_parse e = true) new → status = "ok")
            else navigationRequestQueue this' = splice_first requestId queue
                 ∧ Forall (λ e, is_console_error e = true) new
                 ∧ is_Normal (fst (handle parseHTML ev this))
                   = bool_decide (requestId ∈ uids queue)
      | CssReady requestUid =>
          state this' = state this
          ∧ navigationRequestQueue this' = splice_first requestUid queue
          ∧ Forall (λ e, is_parse e = false) new
          ∧ (Exists (λ e, is_transitionManager e = true) new → active = Some requestUid)
      end.
Proof.
  intros this' queue active. subst this' queue active. unfold dispatch.
  destruct ev as [uid url tr td h target cur|document id status url body error|id];
    cbn [handle].
  - rewrite navigate_spec. simpl. eexists. split; [done|].
    split; [done|]. split; [|done]. unfold uids. by rewrite fmap_app.
  - case_bool_decide as Hactive.
    + destruct (handlePjaxResponse_active parseHTML this document id status url body error Hactive)
        as (c & this' & new & -> & Hs & Hu & He & Hn & Hp).
      simpl. by exists new.
    + rewrite handlePjaxResponse_stale by done.
      destruct (find id (navigationRequestQueue this)) as [[i r]|] eqn:Hf; simpl.
      * eexists. split; [done|]. split; [done|]. split; [done|]. split.
        -- case_bool_decide; by repeat constructor.
        -- symmetry. apply bool_decide_eq_true_2.
           apply find_Some in Hf as (Hq & Hr & _). rewrite Hq. unfold uids.
           rewrite fmap_app, fmap_cons, Hr. set_solver.
      * exists []. rewrite app_nil_r. split; [done|]. split; [done|].
        split; [by rewrite splice_first_absent|]. split; [done|].
        symmetry. apply bool_decide_eq_false_2. by apply find_None.
  - rewrite swapPjaxContent_spec.
    destruct (find id (navigationRequestQueue this)) as [[i r]|] eqn:Hf; simpl.
    + eexists. split; [done|]. split; [done|]. split; [done|].
      case_bool_decide as Hactive.
      * split; [by repeat constructor|done].
      * split; [done|]. by intros ?%Exists_nil.
    + exists []. rewrite app_nil_r. split; [done|]. split; [done|].
      split; [by rewrite splice_first_absent|]. split; [done|]. by intros ?%Exists_nil.
Qed.

Lemma dispatch_effects this ev :
  effects (dispatch parseHTML this ev) = effects this ++ emitted parseHTML this ev.
Proof.
  destruct (dispatch_spec this ev) as (new & He & _). unfold emitted.
  rewrite He. by rewrite drop_app_length.
Qed.

Lemma emitted_spec this ev new :
  effects (dispatch parseHTML this ev) = effects this ++ new → emitted parseHTML this ev = new.
Proof. intros He. unfold emitted. rewrite He. by rewrite drop_app_length. Qed.

Lemma run_snoc evs ev this :
  run parseHTML (evs ++ [ev]) this = dispatch parseHTML (run parseHTML evs this) ev.
Proof. unfold run. by rewrite foldl_snoc. Qed.

(** The active identifier is the one issued last. *)
Lemma active_last_issued evs :
  activeRequestUid (state (run parseHTML evs new)) = last_issued evs.
Proof.
  induction evs as [|ev evs IH] using rev_ind; [done|].
  rewrite run_snoc. unfold last_issued. rewrite foldl_snoc. fold (last_issued evs).
  destruct (dispatch_spec (run parseHTML evs new) ev) as (out & _ & H).
  destruct ev; cbn [issued].
  - by destruct H as (H & _).
  - destruct H as (H & _). by rewrite H.
  - destruct H as (H & _). by rewrite H.
Qed.

(** Removing the first request of another identifier keeps [uid] queued. *)
Lemma splice_first_other uid requestId (queue : list NavigaitonRequest) :
  uid ≠ requestId → uid ∈ uids queue → uid ∈ uids (splice_first requestId queue).
Proof.
  intros Hne Hin.
  destruct (find requestId queue) as [[i r]|] eqn:Hf.
  - rewrite (splice_first_found _ _ _ _ Hf).
    apply find_Some in Hf as (Hq & Hr & _). rewrite Hq in Hin.
    unfold uids in *. rewrite fmap_app, fmap_cons, Hr in Hin. rewrite fmap_app.
    set_solver.
  - by rewrite splice_first_absent.
Qed.

(** A request that was issued stays queued until a message refers to it. *)
Lemma pending_queued evs uid :
  pending uid evs → uid ∈ uids (navigationRequestQueue (run parseHTML evs new)).
Proof.
  induction evs as [|ev evs IH] using rev_ind.
  - intros [H _]. simpl in H. set_solver.
  - intros [Hi Hm]. rewrite fmap_app in Hi, Hm. simpl in Hi, Hm.
    rewrite run_snoc.
    destruct (dispatch_spec (run parseHTML evs new) ev) as (out & _ & H).
    assert (Hold : Some uid ∈ issued <$> evs → Some uid ∉ mentioned <$> evs →
                   uid ∈ uids (navigationRequestQueue (run parseHTML evs new))).
    { intros ??. by apply IH. }
    destruct ev as [uid' url tr td h target cur|document id status url body error|id];
      simpl in *.
    + destruct H as (_ & -> & _).
      apply elem_of_app in Hi as [Hi|Hi].
      * apply elem_of_app. left. apply Hold; [done|]. set_solver.
      * apply elem_of_app. right. set_solver.
    + assert (uid ≠ id) by set_solver.
      assert (uid ∈ uids (navigationRequestQueue (run parseHTML evs new))) as Hq.
      { apply Hold; set_solver. }
      destruct H as (_ & H). case_bool_decide.
      * destruct H as (-> & _). done.
      * destruct H as (-> & _). by apply splice_first_other.
    + assert (uid ≠ id) by set_solver.
      assert (uid ∈ uids (navigationRequestQueue (run parseHTML evs new))) as Hq.
      { apply Hold; set_solver. }
      destruct H as (_ & -> & _). by apply splice_first_other.
Qed.

End Runs.

(** ** Removal from the queue, counted *)

Section Removal.

Variable parseHTML : string → Document.

Implicit Types (this : Pjax) (ev : Event) (evs : list Event) (uid : string).

Lemma count_app uid (q1 q2 : list NavigaitonRequest) :
  count uid (q1 ++ q2) = count uid q1 + count uid q2.
Proof. unfold count, uids. by rewrite fmap_app, filter_app, length_app. Qed.

Lemma count_uids uid (q1 q2 : list NavigaitonRequest) :
  uids q1 = uids q2 → count uid q1 = count uid q2.
Proof. unfold count. by intros ->. Qed.

Lemma count_splice_first uid requestId (queue : list NavigaitonRequest) :
  count uid (splice_first requestId queue)
  + (if bool_decide (uid = requestId ∧ requestId ∈ uids queue) then 1 else 0)
  = count uid queue.
Proof.
  destruct (find requestId queue) as [[i r]|] eqn:Hf.
  - rewrite (splice_first_found _ _ _ _ Hf).
    pose proof (find_Some _ _ _ _ Hf) as (Hq & Hr & _).
    assert (requestId ∈ uids queue) as Hin.
    { rewrite Hq. unfold uids. rewrite fmap_app, fmap_cons, Hr. set_solver. }
    remember (take i queue) as before eqn:Hb1. remember (drop (S i) queue) as after eqn:Hb2.
    clear Hb1 Hb2 Hf. subst queue. rewrite !count_app.
    change (r :: after) with ([r] ++ after). rewrite count_app.
    unfold count at 4. simpl. rewrite Hr, filter_cons, filter_nil.
    case_bool_decide as Hb.
    + destruct Hb as [-> _]. rewrite decide_True by done. simpl. lia.
    + rewrite decide_False by naive_solver. simpl. lia.
  - rewrite splice_first_absent by done.
    rewrite bool_decide_eq_false_2; [lia|].
    apply find_None in Hf. naive_solver.
Qed.

(** What one message takes out of the queue. *)
Lemma removed_by_spec uid this ev :
  let queue := navigationRequestQueue this in
  removed_by parseHTML uid this ev =
  match ev with
  | Load _ _ _ _ _ _ _ => 0
  | PjaxResponse _ requestId _ _ _ _ =>
      if bool_decide (uid = requestId ∧ requestId ∈ uids queue)
      then (if bool_decide (activeRequestUid (state this) = Some requestId) then 0 else 1)
      else 0
  | CssReady requestUid =>
      if bool_decide (uid = requestUid ∧ requestUid ∈ uids queue) then 1 else 0
  end
  ∧ count uid (navigationRequestQueue (dispatch parseHTML this ev))
    + removed_by parseHTML uid this ev
    = count uid queue + (if bool_decide (issued ev = Some uid) then 1 else 0).
Proof.
  intros queue. subst queue. unfold removed_by.
  destruct (dispatch_spec parseHTML this ev) as (out & _ & H).
  destruct ev as [uid' url tr td h target cur|document id status url body error|id];
    cbn [issued].
  - destruct H as (_ & Hu & _).
    assert (count uid (navigationRequestQueue (dispatch parseHTML this
              (Load uid' url tr td h target cur)))
            = count uid (navigationRequestQueue this)
              + (if bool_decide (Some uid' = Some uid) then 1 else 0)) as ->.
    { unfold count. rewrite Hu, filter_app, length_app. f_equal.
      rewrite filter_cons, filter_nil.
      case_bool_decide as Hb.
      - rewrite decide_True by congruence. done.
      - rewrite decide_False by congruence. done. }
    split; lia.
  - destruct H as (_ & H). rewrite (bool_decide_eq_false_2 (None = Some uid)) by done.
    case_bool_decide as Hactive.
    + destruct H as (Hu & _). rewrite (count_uids _ _ _ Hu).
      split; [|lia]. case_bool_decide; lia.
    + destruct H as (-> & _).
      pose proof (count_splice_first uid id (navigationRequestQueue this)) as Hc.
      case_bool_decide; split; lia.
  - destruct H as (_ & -> & _). rewrite (bool_decide_eq_false_2 (None = Some uid)) by done.
    pose proof (count_splice_first uid id (navigationRequestQueue this)) as Hc.
    case_bool_decide; split; lia.
Qed.

(** Every request loaded with [uid] is still queued or has been removed. *)
Lemma removals_accounting uid evs this :
  count uid (navigationRequestQueue (run parseHTML evs this)) + removals parseHTML uid evs this
  = count uid (navigationRequestQueue this) + loads uid evs.
Proof.
  revert this. induction evs as [|ev evs IH]; intros this; [simpl; unfold loads; simpl; lia|].
  cbn [run foldl removals]. fold (run parseHTML evs (dispatch parseHTML this ev)).
  specialize (IH (dispatch parseHTML this ev)).
  destruct (removed_by_spec uid this ev) as (_ & Hstep).
  unfold loads in *. rewrite filter_cons.
  destruct (decide (issued ev = Some uid)) as [He|He].
  - rewrite bool_decide_eq_true_2 in Hstep by done. simpl. lia.
  - rewrite bool_decide_eq_false_2 in Hstep by done. lia.
Qed.

End Removal.

(** ** Last request wins *)

Section LastRequestWins.

Variable parseHTML : string → Document.

(** C1. After any sequence of messages (loads, replies of the web worker and
    [css-ready] messages, in any order) the active identifier is the one
    issued last. Whatever message comes next, it only appends to the log;
    the transition manager is called only by a [css-ready] message carrying
    the identifier issued last, and the [parse] notification that precedes
    it is sent only by an [ok] reply carrying that identifier. A reply that
    carries any other identifier leaves the active identifier alone, takes
    the first request with its identifier out of the queue and logs nothing
    but console errors; its handler returns normally exactly when a request
    with that identifier is queued (it throws on the [null] request
    otherwise, leaving the instance as it was). When the reply is the first
    message to refer to an identifier that was issued, that request is in the
    queue, the handler returns normally and the queue is one request
    shorter. *)
Theorem last_request_wins (evs : list Event) (ev : Event) :
  let this := run parseHTML evs new in
  let this' := dispatch parseHTML this ev in
  let log := emitted parseHTML this ev in
  activeRequestUid (state this) = last_issued evs
  ∧ effects this' = effects this ++ log
  ∧ (Exists (λ e, is_transitionManager e = true) log →
     ∃ requestUid, ev = CssReady requestUid ∧ last_issued evs = Some requestUid)
  ∧ (Exists (λ e, is_parse e = true) log →
     ∃ document requestId url body error,
       ev = PjaxResponse document requestId "ok" url body error
       ∧ last_issued evs = Some requestId)
  ∧ (∀ document requestId status url body error,
       ev = PjaxResponse document requestId status url body error →
       last_issued evs ≠ Some requestId →
       state this' = state this
       ∧ navigationRequestQueue this'
         = splice_first requestId (navigationRequestQueue this)
       ∧ Forall (λ e, is_console_error e = true) log
       ∧ is_Normal (fst (handle parseHTML ev this))
         = bool_decide (requestId ∈ uids (navigationRequestQueue this))
       ∧ (pending requestId evs →
          requestId ∈ uids (navigationRequestQueue this)
          ∧ fst (handle parseHTML ev this) = Normal tt
          ∧ S (length (navigationRequestQueue this'))
            = length (navigationRequestQueue this))).
Proof.
  intros this this' log. subst this this' log.
  pose proof (active_last_issued parseHTML evs) as Hactive.
  set (this := run parseHTML evs new) in *.
  destruct (dispatch_spec parseHTML this ev) as (out & Heff & H).
  rewrite (emitted_spec parseHTML this ev out Heff).
  assert (Hno : ∀ (P Q : Effect → bool) (l : list Effect),
             Forall (λ e, P e = true → Q e = false) l →
             Forall (λ e, P e = true) l → Exists (λ e, Q e = true) l → False).
  { intros P Q l HF HP HE. apply Exists_exists in HE as (e & He & HQ).
    rewrite Forall_forall in HF, HP. specialize (HF e He (HP e He)). congruence. }
  split; [done|]. split; [done|].
  destruct ev as [uid url tr td h target cur|document id status url body error|id].
  - destruct H as (_ & _ & ->).
    split; [|split]; [| |done].
    + intros HE. apply Exists_cons in HE as [HE|HE]; [done|].
      by apply Exists_cons in HE as [HE|HE%Exists_nil].
    + intros HE. apply Exists_cons in HE as [HE|HE]; [done|].
      by apply Exists_cons in HE as [HE|HE%Exists_nil].
  - destruct H as (Hs & H). rewrite Hactive in H. case_bool_decide as Hlast.
    + destruct H as (Hu & Hn & Hp).
      split; [|split]; [| |congruence].
      * intros HE. apply Exists_exists in HE as (e & He & HT).
        rewrite Forall_forall in Hn. specialize (Hn e He). by destruct e.
      * intros HE. specialize (Hp HE). subst status. by eexists _, _, _, _, _.
    + destruct H as (Hq & Hc & Hnormal).
      split; [|split].
      * intros HE. exfalso. apply (Hno is_console_error is_transitionManager out); [|done..].
        apply Forall_forall. by intros [] _.
      * intros HE. exfalso. apply (Hno is_console_error is_parse out); [|done..].
        apply Forall_forall. by intros [] _.
      * intros ?????? [= <- <- <- <- <- <-] _.
        split; [done|]. split; [done|]. split; [done|]. split; [done|].
        intros Hpending. apply (pending_queued parseHTML) in Hpending. fold this in Hpending.
        split; [done|].
        rewrite bool_decide_eq_true_2 in Hnormal by done.
        split.
        -- destruct (handle parseHTML _ this) as [[[]|e] s]; simpl in *; congruence.
        -- rewrite Hq.
           destruct (find id (navigationRequestQueue this)) as [[i r]|] eqn:Hf.
           ++ unfold splice_first. rewrite Hf, length_delete; [|by apply list_find_Some in Hf as (? & _)].
              apply list_find_Some in Hf as (Hi%lookup_lt_Some & _). lia.
           ++ by apply find_None in Hf.
  - destruct H as (Hs & Hq & Hnp & Htm). rewrite Hactive in Htm.
    split; [|split]; [| |done].
    + intros HE. exists id. split; [done|]. by apply Htm.
    + intros HE. exfalso. apply Exists_exists in HE as (e & He & HP).
      rewrite Forall_forall in Hnp. specialize (Hnp e He). congruence.
Qed.

End LastRequestWins.

(** The late reply of the scenario "two rapid clicks": [A] is requested, then
    [B]; the reply for [B] arrives first; the reply for [A] is then dropped. *)
Lemma last_request_wins_witness :
  let evs :=
    [ Load "A" "/about" (Some "fade") None None None "https://djinnjs.test/";
      Load "B" "/news" None None None None "https://djinnjs.test/";
      PjaxResponse Sample.home "B" "ok" "/news" (Some Sample.about_body) None ] in
  let late := PjaxResponse Sample.home "A" "ok" "/about" (Some Sample.about_body) None in
  let this := run Sample.parseHTML evs new in
  last_issued evs = Some "B"
  ∧ fst (handle Sample.parseHTML late this) = Normal tt
  ∧ S (length (navigationRequestQueue (dispatch Sample.parseHTML this late)))
    = length (navigationRequestQueue this)
  ∧ Forall (λ e, is_console_error e = true) (emitted Sample.parseHTML this late).
Proof.
  intros evs late this.
  destruct (last_request_wins Sample.parseHTML evs late) as (_ & _ & _ & _ & H).
  destruct (H Sample.home "A" "ok" "/about" (Some Sample.about_body) None eq_refl)
    as (_ & _ & Hlog & _ & Hpending).
  { vm_compute. discriminate. }
  destruct Hpending as (_ & Hnormal & Hlen).
  { split; apply (bool_decide_unpack _); vm_compute; exact I. }
  split; [reflexivity|]. split; [exact Hnormal|]. split; [exact Hlen|exact Hlog].
Defined.

(** ** Removal happens at most once *)

Section RemovalOnce.

Variable parseHTML : string → Document.

(** C3, as the code has it. Over any sequence of messages, each request
    loaded with an identifier is either still in the queue or has been
    removed, and never more than once: the removals of an identifier never
    exceed its loads. A queued request is removed by the [css-ready] message
    for its identifier (whether it is still active and swapped, or not and
    dropped), and by its reply when the reply finds it superseded; the reply
    to the active request removes nothing, whatever its status, and no
    message removes a request it does not refer to. *)
Theorem removal_at_most_once (evs : list Event) (uid : string) :
  let this := run parseHTML evs new in
  let queued := uid ∈ uids (navigationRequestQueue this) in
  count uid (navigationRequestQueue this) + removals parseHTML uid evs new = loads uid evs
  ∧ (removals parseHTML uid evs new ≤ loads uid evs)%nat
  ∧ (queued → removed_by parseHTML uid this (CssReady uid) = 1)
  ∧ (∀ document status url body error,
       queued →
       removed_by parseHTML uid this (PjaxResponse document uid status url body error)
       = if bool_decide (last_issued evs = Some uid) then 0 else 1)
  ∧ (∀ ev, mentioned ev ≠ Some uid → removed_by parseHTML uid this ev = 0).
Proof.
  intros this queued. subst this queued.
  pose proof (removals_accounting parseHTML uid evs new) as Hacc.
  change (count uid (navigationRequestQueue new)) with 0 in Hacc.
  pose proof (active_last_issued parseHTML evs) as Hactive.
  set (this := run parseHTML evs new) in *.
  split; [lia|]. split; [lia|]. split; [|split].
  - intros Hq. destruct (removed_by_spec parseHTML uid this (CssReady uid)) as (-> & _).
    by rewrite bool_decide_eq_true_2.
  - intros document status url body error Hq.
    destruct (removed_by_spec parseHTML uid this
                (PjaxResponse document uid status url body error)) as (-> & _).
    rewrite bool_decide_eq_true_2 by done. by rewrite Hactive.
  - intros ev Hm. destruct (removed_by_spec parseHTML uid this ev) as (-> & _).
    destruct ev; simpl in *; [done| |]; rewrite bool_decide_eq_false_2; naive_solver.
Qed.

End RemovalOnce.

(** A request loaded once and superseded before its reply: removed once, by
    the reply. *)
Lemma removal_at_most_once_witness :
  let evs :=
    [ Load "A" "/about" None None None None "https://djinnjs.test/";
      Load "B" "/news" None None None None "https://djinnjs.test/" ] in
  let this := run Sample.parseHTML evs new in
  removed_by Sample.parseHTML "A" this
    (PjaxResponse Sample.home "A" "ok" "/about" (Some Sample.about_body) None) = 1
  ∧ removed_by Sample.parseHTML "A" this (CssReady "A") = 1
  ∧ removed_by Sample.parseHTML "A" this (CssReady "B") = 0.
Proof.
  intros evs this.
  destruct (removal_at_most_once Sample.parseHTML evs "A") as (_ & _ & Hcss & Hreply & Hother).
  assert ("A" ∈ uids (navigationRequestQueue this)) as Hq.
  { apply (bool_decide_unpack _). vm_compute. exact I. }
  split; [exact (Hreply _ _ _ _ _ Hq)|].
  split; [exact (Hcss Hq)|].
  apply Hother. simpl. discriminate.
Defined.

(** C3 as stated fails: a request whose reply is a hash-only change is
    handled to the end (the fragment of the location is set) and is never
    taken out of the queue. *)
Lemma removal_exactly_once_counterexample :
  let evs :=
    [ Load "A" "/about#team" None None None None "https://djinnjs.test/about";
      PjaxResponse Sample.home "A" "hash-change" "/about#team" None None ] in
  let this := run Sample.parseHTML evs new in
  loads "A" evs = 1
  ∧ effects this
    = [ env_startPageTransition;
        worker_postMessage (worker_pjax "A" "/about#team" "https://djinnjs.test/about");
        location_hash "team" ]
  ∧ removals Sample.parseHTML "A" evs new = 0
  ∧ uids (navigationRequestQueue this) = ["A"].
Proof. vm_compute. repeat split. Qed.

(** ** A [css-ready] message for a request that is not queued *)

(** C2, on the code: when no queued request carries the identifier of a
    [css-ready] message, [getNavigaitonRequest] answers [null] and
    [swapPjaxContent] throws a [TypeError] on [request.requestUid]; the
    instance is left as it was. *)
Theorem css_ready_unqueued_throws (this : Pjax) (requestUid_ : string) :
  requestUid_ ∉ uids (navigationRequestQueue this) →
  swapPjaxContent requestUid_ this
  = (Throw (TypeError "Cannot read property 'requestUid' of null"), this).
Proof.
  intros Hq. apply find_None in Hq. rewrite swapPjaxContent_spec. by rewrite Hq.
Qed.

(** The request [A] is loaded, answered, swapped and removed; a second
    [css-ready] message for [A] then throws. *)
Lemma css_ready_unqueued_throws_witness :
  let evs :=
    [ Load "A" "/about" (Some "fade") None None None "https://djinnjs.test/";
      PjaxResponse Sample.home "A" "ok" "/about" (Some Sample.about_body) None;
      CssReady "A" ] in
  let this := run Sample.parseHTML evs new in
  navigationRequestQueue this = []
  ∧ swapPjaxContent "A" this
    = (Throw (TypeError "Cannot read property 'requestUid' of null"), this).
Proof.
  intros evs this. split; [reflexivity|].
  apply (css_ready_unqueued_throws this "A").
  apply (bool_decide_unpack _). vm_compute. exact I.
Defined.

(** ** The region of a swap *)






(** ** The reply to the active request, status [ok] *)

Section RegionResolution.

Variable parseHTML : string → Document.


End RegionResolution.


(** ** Hijacking links *)

(** Mutating, one after the other, the elements a selection has returned
    amounts to mapping over the document. *)
Lemma foldl_update_select (f : Element → Element) (P : Element → bool)
    (t : string) (before l : list Element) :
  foldl (λ doc (link : nat * Element), update f (fst link) doc)
        {| DOM.title := t; elements := before ++ l |} (select P (length before) l)
  = {| DOM.title := t; elements := before ++ ((λ e, if P e then f e else e) <$> l) |}.
Proof.
  revert before. induction l as [|e l IH]; intros before; [done|].
  cbn [select fmap list_fmap].
  assert (∀ x : Element, before ++ x :: l = (before ++ [x]) ++ l) as Hsnoc.
  { intros x. by rewrite <- app_assoc. }
  assert (∀ x : Element, S (length before) = length (before ++ [x])) as Hlen.
  { intros x. rewrite length_app. simpl. lia. }
  destruct (P e) eqn:HP.
  - assert (alter f (length before) (before ++ e :: l) = before ++ f e :: l) as Halter.
    { rewrite <- (Nat.add_0_r (length before)). by rewrite alter_app_r. }
    cbn [foldl fst]. unfold update at 2. cbn [DOM.title elements].
    rewrite Halter, (Hsnoc (f e)), (Hlen (f e)), IH. by rewrite <- app_assoc.
  - rewrite (Hsnoc e), (Hlen e), IH. by rewrite <- app_assoc.
Qed.

Lemma eligible_matches (e : Element) :
  inBody e && matches unregistered_links e = eligible e.
Proof.
  unfold eligible, matches, unregistered_links, getAttribute. simpl.
  destruct (inBody e); simpl; repeat case_bool_decide; simpl; try done.
Qed.

Lemma collectLinks_map (document : Document) :
  collectLinks document
  = {| DOM.title := DOM.title document;
       elements := (λ e, if eligible e then track e else e) <$> elements document |}.
Proof.
  unfold collectLinks, body_querySelectorAll.
  pose proof (foldl_update_select track (λ e, inBody e && matches unregistered_links e)
                (DOM.title document) [] (elements document)) as H.
  simpl in H.
  assert ({| DOM.title := DOM.title document; elements := elements document |} = document) as Hd
    by by destruct document.
  rewrite Hd in H.
  transitivity (foldl (λ doc (link : nat * Element), update track (fst link) doc) document
                  (select (λ e, inBody e && matches unregistered_links e) 0 (elements document))).
  { by destruct (select _ 0 (elements document)). }
  rewrite H. f_equal.
  apply list_fmap_ext. intros _ e _. by rewrite eligible_matches.
Qed.

Lemma eligible_track (e : Element) : eligible (track e) = false.
Proof.
  unfold eligible, track, getAttribute. simpl.
  rewrite (bool_decide_eq_true_2 (is_Some (<["pjax-tracked":="true"]> (attributes e) !! "pjax-tracked"))).
  - by rewrite !andb_false_r.
  - rewrite lookup_insert_eq. eauto.
Qed.

Lemma collectLinks_again (document : Document) :
  collectLinks (collectLinks document) = collectLinks document.
Proof.
  rewrite !collectLinks_map. simpl. f_equal.
  rewrite <- list_fmap_compose. apply list_fmap_ext. intros _ e _. simpl.
  destruct (eligible e) eqn:He; [by rewrite eligible_track|by rewrite He].
Qed.

Lemma collectLinks_iter (document : Document) (N : nat) :
  Nat.iter (S N) collectLinks document = collectLinks document.
Proof.
  induction N as [|N IH]; [done|].
  rewrite Nat.iter_succ, IH. apply collectLinks_again.
Qed.

(** C5. Call [collectLinks] [N >= 1] times on a document that nothing else
    changes. The document keeps its elements in place, and each element has
    received one [addEventListener("click", handleLinkClick)] call if it was
    an eligible anchor of the original document and none otherwise: the
    number of click interceptors attached to it has grown by exactly one, or
    not at all. *)
Theorem collectLinks_once (document : Document) (N : nat) :
  (1 ≤ N)%nat →
  let tracked := Nat.iter N collectLinks document in
  length (elements tracked) = length (elements document)
  ∧ ∀ ref e,
      elements document !! ref = Some e →
      ∃ e',
        elements tracked !! ref = Some e'
        ∧ listeners e'
          = listeners e ++ (if eligible e then [("click", handleLinkClick)] else [])
        ∧ interceptors e' = interceptors e + (if eligible e then 1 else 0).
Proof.
  intros HN tracked. subst tracked.
  destruct N as [|N]; [lia|]. rewrite collectLinks_iter, collectLinks_map. simpl.
  split; [by rewrite length_fmap|].
  intros ref e He. rewrite list_lookup_fmap, He. simpl.
  eexists. split; [done|].
  unfold interceptors.
  destruct (eligible e); simpl.
  - split; [done|]. rewrite filter_app, length_app, filter_cons, filter_nil.
    by rewrite decide_True.
  - rewrite app_nil_r. split; [done|lia].
Qed.

(** Three calls on the sample page: the [/about] link of the header gets
    its one interceptor, the excluded [/legal] link none. *)
Lemma collectLinks_once_witness :
  let tracked := Nat.iter 3 collectLinks Sample.home in
  (interceptors <$> elements tracked) = [0; 0; 0; 1; 0; 0; 0; 1].
Proof.
  intros tracked.
  destruct (collectLinks_once Sample.home 3) as (Hlen & Hlinks); [lia|].
  fold tracked in Hlen, Hlinks.
  apply list_eq. intros ref.
  destruct (elements Sample.home !! ref) as [e|] eqn:He.
  - destruct (Hlinks ref e He) as (e' & He' & _ & Hcount).
    rewrite list_lookup_fmap, He'. simpl. rewrite Hcount.
    do 8 (destruct ref as [|ref]; [vm_compute in He; injection He as <-; reflexivity|]).
    discriminate.
  - apply lookup_ge_None in He. rewrite <- Hlen in He.
    rewrite (proj2 (lookup_ge_None _ _)); [|by rewrite length_fmap].
    symmetry. apply lookup_ge_None. exact He.
Defined.

(** ** Committing history *)

(** C7, as the browser has it. On a window with a current entry,
    [updateHistory] with mode [replace] keeps the length of the session
    history, and with mode [push] makes the new entry the last one, right
    after the current entry: the length becomes the index of the current
    entry plus two, which is one more than before exactly when the current
    entry was the last one, and never more than one more. In both modes the
    state of the new current entry records the URL. *)
Theorem updateHistory_length (title url : string) (h : History.SessionHistory) :
  History.wf h →
  History.length (updateHistory title url replace h) = History.length h
  ∧ History.length (updateHistory title url push h) = S (S (History.current h))
  ∧ (History.length (updateHistory title url push h) = S (History.length h)
     ↔ S (History.current h) = History.length h)
  ∧ (History.length (updateHistory title url push h) ≤ S (History.length h))%nat
  ∧ ∀ mode, History.state (updateHistory title url mode h) = Some {| History.url := url |}.
Proof.
  unfold History.wf, History.length, History.state. intros Hwf.
  assert (length (take (S (History.current h)) (History.entries h)) = S (History.current h))
    as Htake by (rewrite length_take; lia).
  split; [simpl; by rewrite length_insert|].
  split; [simpl; rewrite length_app, Htake; simpl; lia|].
  split; [simpl; rewrite length_app, Htake; simpl; lia|].
  split; [simpl; rewrite length_app, Htake; simpl; lia|].
  intros [|]; simpl.
  - rewrite lookup_app_r by lia. rewrite Htake, Nat.sub_diag. done.
  - rewrite list_lookup_insert_eq by done. done.
Qed.

(** A push from the last entry of a history of two. *)
Lemma updateHistory_length_witness :
  let h := {| History.entries := History.entries Sample.went_back; History.current := 1 |} in
  History.length (updateHistory "News" "/news" push h) = 3
  ∧ History.length (updateHistory "News" "/news" replace h) = 2
  ∧ History.state (updateHistory "News" "/news" push h) = Some {| History.url := "/news" |}.
Proof.
  intros h.
  destruct (updateHistory_length "News" "/news" h) as (Hreplace & Hpush & _ & _ & Hstate).
  { unfold History.wf. simpl. lia. }
  split; [exact Hpush|]. split; [exact Hreplace|]. exact (Hstate push).
Defined.

(** C7 as stated fails: after one step back, a commit with mode [push] drops
    the forward entry and the history is as long as before. *)
Lemma push_grows_counterexample :
  History.wf Sample.went_back
  ∧ History.length Sample.went_back = 2
  ∧ History.length (updateHistory "News" "/news" push Sample.went_back) = 2.
Proof. split; [unfold History.wf; simpl; lia|]. split; reflexivity. Qed.

(** ** The prompt budget *)

(** C8. Let the [prompts] entry of the session storage read as the number
    [count] when a [cachebust] message carrying [max] arrives. The handler
    records [max], and, if [count >= max], sets [prompts] to ["0"] and posts
    [clear-content-cache] to the service worker; if [count < max] it leaves
    [prompts] as it is and this branch posts nothing. What follows in the log
    is what the check of the content cache's age posts on its own. *)
Theorem cachebust_prompt_budget (debug : bool) (now now' max contentCacheExpires count : Z)
    (storage : Storage) :
  parseInt (sessionStorage storage !! "prompts") = Some count →
  let result :=
    handleServiceWorkerMessage debug now now' (cachebust max contentCacheExpires) storage in
  let expiry := cachebust_expiry contentCacheExpires now now' (localStorage storage) in
  localStorage (fst result) = fst expiry
  ∧ sessionStorage (fst result) !! "maxPrompts" = Some (pretty max)
  ∧ if bool_decide (max ≤ count)%Z
    then sessionStorage (fst result) !! "prompts" = Some "0"
         ∧ parseInt (sessionStorage (fst result) !! "prompts") = Some 0%Z
         ∧ snd result = serviceWorker_postMessage sw_clear_content_cache :: snd expiry
    else sessionStorage (fst result) !! "prompts" = sessionStorage storage !! "prompts"
         ∧ snd result = snd expiry.
Proof.
  intros Hcount result expiry. subst result expiry.
  unfold handleServiceWorkerMessage, cachebust_prompts.
  rewrite lookup_insert_ne by done. rewrite Hcount. unfold JS.ge.
  destruct (cachebust_expiry contentCacheExpires now now' (localStorage storage))
    as [local out'].
  case_bool_decide as Hmax.
  - rewrite (proj2 (Z.leb_le max count) Hmax). simpl.
    split; [done|]. split; [|by rewrite lookup_insert_eq].
    rewrite lookup_insert_ne by done. by rewrite lookup_insert_eq.
  - rewrite (proj2 (Z.leb_gt max count)) by lia. simpl.
    split; [done|]. split; [by rewrite lookup_insert_eq|].
    by rewrite lookup_insert_ne.
Qed.

(** Three prompts shown: a budget of three is used up, a budget of five is not. *)
Lemma cachebust_prompt_budget_witness :
  let used_up := handleServiceWorkerMessage false 1000 1001 (cachebust 3 1) Sample.three_prompts in
  let left := handleServiceWorkerMessage false 1000 1001 (cachebust 5 1) Sample.three_prompts in
  (sessionStorage (fst used_up) !! "prompts" = Some "0"
   ∧ snd used_up = [serviceWorker_postMessage sw_clear_content_cache])
  ∧ (sessionStorage (fst left) !! "prompts" = Some "3" ∧ snd left = []).
Proof.
  intros used_up left. split.
  - destruct (cachebust_prompt_budget false 1000 1001 3 1 3 Sample.three_prompts eq_refl)
      as (_ & _ & H).
    destruct H as (H0 & _ & Hout). split; [exact H0|exact Hout].
  - destruct (cachebust_prompt_budget false 1000 1001 5 1 3 Sample.three_prompts eq_refl)
      as (_ & _ & H).
    destruct H as (H3 & Hout). split; [exact H3|exact Hout].
Defined.

(** ** Prefetching *)

(** C9. [prefetchLinks] does nothing at all (no message, no mark on any link)
    when the connection is 2g or slow-2g, when the navigator has no service
    worker, or when the data saver is on. And whenever the connection is not
    4g, no link is put under the intersection observer. *)
Theorem prefetch_gates (env : Env.Env) (serviceWorker_in_navigator : bool)
    (document : Document) :
  let result := prefetchLinks env serviceWorker_in_navigator document in
  (Env.connection env = Env._2g ∨ Env.connection env = Env.slow_2g
   ∨ serviceWorker_in_navigator = false ∨ Env.dataSaver env = true →
   result = (document, []))
  ∧ (Env.connection env ≠ Env._4g →
     Forall (λ e, is_io_observe e = false) (snd result))
  ∧ (Exists (λ e, is_io_observe e = true) (snd result) →
     Env.connection env = Env._4g
     ∧ serviceWorker_in_navigator = true
     ∧ Env.dataSaver env = false).
Proof.
  intros result. subst result. unfold prefetchLinks.
  assert (∀ l : list Effect,
             Forall (λ e, is_io_observe e = false) l →
             Exists (λ e, is_io_observe e = true) l → False) as Hno.
  { intros l HF HE. apply Exists_exists in HE as (e & He & Ho).
    rewrite Forall_forall in HF. specialize (HF e He). congruence. }
  destruct env as [connection dataSaver]. simpl.
  destruct (mark_and_collect _ document []) as [document1 urls1].
  destruct (mark_and_collect _ document1 urls1) as [document2 urls2].
  destruct (mark_and_observe _ document2) as [document3 observed].
  destruct connection, serviceWorker_in_navigator, dataSaver; simpl;
    (split; [naive_solver|]); (split; [intros Hc|intros HE]);
    try done; try (by repeat constructor);
    exfalso; (eapply Hno; [|exact HE]); by repeat constructor.
Qed.

(** On the sample page: nothing on 2g; one message and no observation on 3g;
    observation on 4g. *)
Lemma prefetch_gates_witness :
  prefetchLinks {| Env.connection := Env._2g; Env.dataSaver := false |} true Sample.home
  = (Sample.home, [])
  ∧ snd (prefetchLinks {| Env.connection := Env._3g; Env.dataSaver := false |} true Sample.home)
    = [worker_postMessage (worker_prefetch ["https://djinnjs.test/about"])]
  ∧ snd (prefetchLinks {| Env.connection := Env._4g; Env.dataSaver := false |} true Sample.home)
    = [worker_postMessage (worker_prefetch ["https://djinnjs.test/about"]);
       io_observe 6; io_observe 7].
Proof.
  split.
  - destruct (prefetch_gates {| Env.connection := Env._2g; Env.dataSaver := false |} true
                Sample.home) as (H & _).
    apply H. left. reflexivity.
  - split; reflexivity.
Defined.

(** * Further properties of the code *)

(** ** Loading states ([env.ts]) *)

Section LoadingStates.

Import Loading.

Implicit Types (env : Loading.Env) (cs : list Call).

Lemma calls_snoc cs c env : calls (cs ++ [c]) env = call (calls cs env) c.
Proof. unfold calls. by rewrite foldl_snoc. Qed.

Lemma calls_cons c cs env : calls (c :: cs) env = calls cs (call env c).
Proof. done. Qed.

(** X1. If the [state] attribute of the document element spells the
    [domState] of the object, it still does after any sequence of calls of
    [startLoading], [stopLoading], [startPageTransition], [endPageTransition],
    its timer and [setDOMState]: every assignment is followed by its
    [setAttribute]. *)
Theorem state_attribute_mirrors cs env :
  state_attribute env = Some (name (domState env)) →
  state_attribute (calls cs env) = Some (name (domState (calls cs env))).
Proof.
  revert env. induction cs as [|c cs IH]; intros env Henv; [done|].
  rewrite calls_cons. apply IH.
  destruct c as [uid|ticket| | | |s]; simpl; try done.
  - unfold startLoading. by case_bool_decide.
  - unfold stopLoading. repeat (case_match; simpl; try done).
  - unfold endPageTransition_timeout. by case_match.
Qed.

Lemma state_attribute_mirrors_witness :
  let env := calls [SetDOMState idling; StartLoading "t1"; StopLoading (Some "t1")]
                   (Loading.new false None) in
  state_attribute env = Some "idling".
Proof.
  intros env.
  pose proof (state_attribute_mirrors [StartLoading "t1"; StopLoading (Some "t1")]
                (calls [SetDOMState idling] (Loading.new false None)) eq_refl) as H.
  exact H.
Defined.



Lemma remove_ticket_perm (ticket : string) (tickets : list string) :
  ticket ∈ tickets → tickets ≡ₚ ticket :: remove_ticket ticket tickets.
Proof.
  induction tickets as [|t tickets IH]; [by intros ?%elem_of_nil|].
  intros Hin. simpl. case_decide as Ht; [by subst|].
  apply elem_of_cons in Hin as [->|Hin]; [done|].
  rewrite (IH Hin) at 1. apply Permutation_swap.
Qed.

Lemma starts_spec (ts : list string) env :
  let env' := calls (StartLoading <$> ts) env in
  _tickets env' = _tickets env ++ ts
  ∧ domState env'
    = if bool_decide (ts = []) then domState env
      else if bool_decide (domState env = hard_loading) then hard_loading else soft_loading.
Proof.
  revert env. induction ts as [|t ts IH]; intros env; cbv zeta.
  - simpl. by rewrite app_nil_r.
  - rewrite fmap_cons, calls_cons. destruct (IH (call env (StartLoading t))) as [-> ->].
    simpl. unfold startLoading. rewrite <- app_assoc.
    split; [by destruct (bool_decide (domState env = hard_loading))|].
    clear IH. destruct env as [debug d tickets served]. simpl.
    destruct d; destruct (bool_decide (ts = [])); simpl;
      repeat (case_bool_decide; simpl; try done); done.
Qed.

Lemma stops_spec (returned rest : list string) env :
  domState env = soft_loading →
  "" ∉ returned →
  returned ++ rest ≡ₚ _tickets env →
  let env' := calls ((λ t, StopLoading (Some t)) <$> returned) env in
  _tickets env' ≡ₚ rest
  ∧ domState env'
    = if bool_decide (returned ≠ [] ∧ rest = []) then idling else soft_loading.
Proof.
  revert env. induction returned as [|t returned IH]; intros env Hsoft Hne Hperm; cbv zeta.
  - rewrite bool_decide_eq_false_2 by naive_solver. simpl in *. by rewrite Hperm.
  - rewrite fmap_cons, calls_cons.
    assert (t ≠ "") as Ht by (intros ->; apply Hne; left).
    assert ("" ∉ returned) as Hne' by (intros ?; apply Hne; by right).
    assert (t ∈ _tickets env) as Hin by (rewrite <- Hperm; left).
    pose proof (remove_ticket_perm t _ Hin) as Hrem.
    assert (returned ++ rest ≡ₚ remove_ticket t (_tickets env)) as Hperm'.
    { apply (Permutation_cons_inv (a := t)). by rewrite <- Hrem, <- Hperm. }
    simpl. unfold stopLoading. simpl.
    rewrite (bool_decide_eq_false_2 (t = "")) by done.
    cbn [negb andb orb].
    rewrite Hsoft. rewrite (bool_decide_eq_false_2 (soft_loading = hard_loading)) by done.
    rewrite andb_true_r.
    destruct (decide (length (remove_ticket t (_tickets env)) = 0)) as [Hlen|Hlen];
      [rewrite (bool_decide_eq_true_2 _ Hlen)|rewrite (bool_decide_eq_false_2 _ Hlen)];
      simpl.
    + apply nil_length_inv in Hlen. rewrite Hlen in Hperm'.
      apply Permutation_nil_r in Hperm'. apply app_eq_nil in Hperm' as [-> ->].
      simpl. by rewrite Hlen.
    + destruct (IH (set_tickets (remove_ticket t (_tickets env)) env)) as [Ht' Hd'];
        [done|done|done|].
      split; [done|]. rewrite Hd'.
      assert (returned ++ rest ≠ []) as Hnonempty.
      { intros Hnil. rewrite Hnil in Hperm'. apply Permutation_nil in Hperm'.
        by rewrite Hperm' in Hlen. }
      repeat case_bool_decide; try done; naive_solver.
Qed.

(** X3. Start from an object that is not [hard-loading] and holds no ticket.
    After [startLoading] has handed out the non-empty tickets [ts], the state
    is [soft-loading]; when they are handed back through [stopLoading] in any
    order, the state stays [soft-loading] as long as one ticket is out and
    becomes [idling] with the last one. *)
Theorem idle_with_last_ticket env (ts returned rest : list string) :
  _tickets env = [] →
  domState env ≠ hard_loading →
  ts ≠ [] →
  "" ∉ ts →
  returned ++ rest ≡ₚ ts →
  let started := calls (StartLoading <$> ts) env in
  let stopped := calls ((λ t, StopLoading (Some t)) <$> returned) started in
  _tickets started = ts
  ∧ domState started = soft_loading
  ∧ _tickets stopped ≡ₚ rest
  ∧ domState stopped = if bool_decide (rest = []) then idling else soft_loading.
Proof.
  intros Hempty Hhard Hts Hne Hperm started stopped. subst started stopped.
  destruct (starts_spec ts env) as [Htickets Hstate].
  rewrite Hempty in Htickets. simpl in Htickets.
  rewrite (bool_decide_eq_false_2 (ts = [])) in Hstate by done.
  rewrite (bool_decide_eq_false_2 (domState env = hard_loading)) in Hstate by done.
  split; [done|]. split; [done|].
  destruct (stops_spec returned rest (calls (StartLoading <$> ts) env)) as [Ht Hd].
  - done.
  - intros Hin. apply Hne. rewrite <- Hperm. apply elem_of_app. by left.
  - by rewrite Htickets.
  - split; [done|]. rewrite Hd.
    destruct rest as [|r rest].
    + rewrite bool_decide_eq_true_2; [by rewrite bool_decide_eq_true_2|].
      split; [|done]. intros ->. rewrite app_nil_r in Hperm.
      apply Permutation_nil in Hperm. done.
    + rewrite bool_decide_eq_false_2 by naive_solver.
      by rewrite bool_decide_eq_false_2.
Qed.

Lemma idle_with_last_ticket_witness :
  let env := Loading.setDOMState idling (Loading.new false None) in
  let started := calls (StartLoading <$> ["a"; "b"; "c"]) env in
  domState (calls ((λ t, StopLoading (Some t)) <$> ["c"; "a"]) started) = soft_loading
  ∧ domState (calls ((λ t, StopLoading (Some t)) <$> ["c"; "a"; "b"]) started) = idling.
Proof.
  intros env started. split.
  - destruct (idle_with_last_ticket env ["a"; "b"; "c"] ["c"; "a"] ["b"])
      as (_ & _ & _ & H); try done.
    + apply (bool_decide_unpack _). vm_compute. exact I.
    + apply (bool_decide_unpack _). vm_compute. exact I.
  - destruct (idle_with_last_ticket env ["a"; "b"; "c"] ["c"; "a"; "b"] [])
      as (_ & _ & _ & H); try done.
    + apply (bool_decide_unpack _). vm_compute. exact I.
    + apply (bool_decide_unpack _). vm_compute. exact I.
Defined.

End LoadingStates.

(** ** Numbers in web storage *)

Section StoredNumbers.

Lemma digit_value_pretty_N_char (d : N) :
  (d < 10)%N → digit_value (pretty_N_char d) = Some (Z.of_N d).
Proof.
  intros Hd.
  do 10 (destruct d as [|d] using N.peano_ind; [reflexivity|]).
  lia.
Qed.

(** The decimal digits of a positive number begin with a digit from 1 to 9. *)
Lemma pretty_N_go_leading (x : N) (s : string) :
  (0 < x)%N →
  ∃ d r, (0 < d < 10)%N ∧ pretty_N_go x s = String (pretty_N_char d) r.
Proof.
  revert s. induction x as [x IH] using (well_founded_induction N.lt_wf_0).
  intros s Hx. rewrite pretty_N_go_step by done.
  destruct (decide (x `div` 10 = 0)%N) as [Hdiv|Hdiv].
  - rewrite Hdiv, pretty_N_go_0. exists (x `mod` 10)%N, s. split; [|done].
    pose proof (N.mod_lt x 10 ltac:(done)). pose proof (N.div_mod x 10 ltac:(done)). lia.
  - apply IH; [|by apply N.neq_0_lt_0]. apply N.div_lt; lia.
Qed.

(** Reading the decimal digits of [x] after [acc] appends them to [acc]. *)
Lemma digits_pretty_N_go (x : N) (acc : option Z) (s : string) :
  (0 < x)%N →
  ∃ k : nat,
    digits 10 acc (pretty_N_go x s)
    = digits 10 (Some (default 0 acc * 10 ^ Z.of_nat k + Z.of_N x)%Z) s.
Proof.
  revert acc s. induction x as [x IH] using (well_founded_induction N.lt_wf_0).
  intros acc s Hx. rewrite pretty_N_go_step by done.
  pose proof (N.mod_lt x 10 ltac:(done)) as Hmod.
  pose proof (N.div_mod x 10 ltac:(done)) as Hdm.
  assert (∀ v : option Z,
             digits 10 v (String (pretty_N_char (x `mod` 10)) s)
             = digits 10 (Some (default 0 v * 10 + Z.of_N (x `mod` 10))%Z) s) as Hstep.
  { intros v. cbn [digits]. rewrite digit_value_pretty_N_char by done.
    rewrite (proj2 (Z.ltb_lt _ _)) by lia. done. }
  destruct (decide (x `div` 10 = 0)%N) as [Hdiv|Hdiv].
  - rewrite Hdiv, pretty_N_go_0, Hstep. exists 1%nat. do 2 f_equal. lia.
  - assert (x `div` 10 < x)%N as Hlt by (apply N.div_lt; lia).
    assert (0 < x `div` 10)%N as Hpos by (by apply N.neq_0_lt_0).
    destruct (IH (x `div` 10)%N Hlt acc
                (String (pretty_N_char (x `mod` 10)) s) Hpos) as [k Hk].
    rewrite Hk, Hstep. exists (S k). do 2 f_equal. simpl default.
    rewrite Nat2Z.inj_succ, Z.pow_succ_r by lia. lia.
Qed.

Lemma unsigned_pretty_N_go (x : N) :
  (0 < x)%N → unsigned (pretty_N_go x "") = Some (Z.of_N x).
Proof.
  intros Hx.
  destruct (pretty_N_go_leading x "" Hx) as (d & r & Hd & Hgo).
  assert (unsigned (pretty_N_go x "") = digits 10 None (pretty_N_go x "")) as ->.
  { rewrite Hgo.
    do 10 (destruct d as [|d] using N.peano_ind; [try reflexivity; lia|]). lia. }
  destruct (digits_pretty_N_go x None "" Hx) as [k ->]. simpl. f_equal; lia.
Qed.

Lemma parseInt_string_pretty_N_go (x : N) :
  (0 < x)%N → parseInt_string (pretty_N_go x "") = Some (Z.of_N x).
Proof.
  intros Hx. rewrite <- (unsigned_pretty_N_go x Hx).
  destruct (pretty_N_go_leading x "" Hx) as (d & r & Hd & ->).
  do 10 (destruct d as [|d] using N.peano_ind; [try reflexivity; lia|]). lia.
Qed.

(** Writing a number with a template literal, then reading it with [parseInt]. *)
Lemma parseInt_template_literal (n : option Z) :
  parseInt (Some (number_to_string n)) = n.
Proof.
  destruct n as [[|p|p]|]; simpl; try reflexivity.
  - change (pretty (Z.pos p)) with (pretty (N.pos p)). unfold pretty, pretty_N.
    rewrite decide_False by done. by apply parseInt_string_pretty_N_go.
  - change (pretty (Z.neg p)) with ("-" +:+ pretty (N.pos p)). unfold pretty, pretty_N.
    rewrite decide_False by done.
    change (parseInt_string ("-" +:+ pretty_N_go (N.pos p) ""))
      with (Z.opp <$> unsigned (pretty_N_go (N.pos p) "")).
    by rewrite unsigned_pretty_N_go.
Qed.


End StoredNumbers.

(** ** The prompt counter and the content cache stamp *)

Section WebStorage.

Import Coordinator.

Implicit Types (storage : Storage) (messages : list (Z * Z * ServiceWorkerEvent)).

Lemma serviceWorkerMessages_snoc debug messages m storage :
  serviceWorkerMessages debug (messages ++ [m]) storage
  = let acc := serviceWorkerMessages debug messages storage in
    let result := handleServiceWorkerMessage debug (fst (fst m)) (snd (fst m)) (snd m) (fst acc) in
    (fst result, snd acc ++ snd result).
Proof. unfold serviceWorkerMessages. by rewrite foldl_snoc. Qed.

Lemma pretty_Z_nonempty (z : Z) : pretty z ≠ "".
Proof.
  destruct z as [|p|p]; [done| |done].
  change (pretty (Z.pos p)) with (pretty (N.pos p)). unfold pretty, pretty_N.
  rewrite decide_False by done.
  destruct (pretty_N_go_leading (N.pos p) "" ltac:(done)) as (d & r & _ & ->). done.
Qed.



(** X6. A prompt counter that does not read as a number (missing, empty or
    corrupt) never recovers: whatever messages the service worker sends, it
    still does not read as a number afterwards, so the prompt budget never
    resets it and never asks for the content cache to be cleared. *)
Theorem unreadable_counter_stays debug messages storage :
  parseInt (sessionStorage storage !! "prompts") = None →
  let result := serviceWorkerMessages debug messages storage in
  parseInt (sessionStorage (fst result) !! "prompts") = None
  ∧ ∀ max, snd (cachebust_prompts max (sessionStorage (fst result))) = [].
Proof.
  intros Hnan. cbv zeta.
  assert (parseInt (sessionStorage (serviceWorkerMessages debug messages storage).1 !! "prompts")
          = None) as Hres.
  { induction messages as [|m messages IH] using rev_ind; [done|].
    rewrite serviceWorkerMessages_snoc. cbv zeta.
    destruct (snd m) as [|max expires|type]; unfold handleServiceWorkerMessage.
    - cbn [fst snd sessionStorage]. rewrite IH, lookup_insert_eq. done.
    - unfold cachebust_prompts. rewrite lookup_insert_ne by done. rewrite IH.
      cbn [JS.ge]. destruct (cachebust_expiry _ _ _ _).
      cbn [fst sessionStorage]. by rewrite lookup_insert_ne.
    - done. }
  split; [done|].
  intros max. unfold cachebust_prompts. rewrite lookup_insert_ne by done. by rewrite Hres.
Qed.

Lemma unreadable_counter_stays_witness :
  let cleared := {| sessionStorage := ∅; localStorage := ∅ |} in
  let result :=
    serviceWorkerMessages false
      [(10, 10, page_refresh); (20, 20, cachebust 0 1); (30, 30, page_refresh)]%Z cleared in
  sessionStorage (fst result) !! "prompts" = Some "NaN"
  ∧ parseInt (sessionStorage (fst result) !! "prompts") = None.
Proof.
  intros cleared result. split; [reflexivity|].
  apply (unreadable_counter_stays false _ cleared). reflexivity.
Defined.

(** X7. After the storage part of [init], both the prompt counter and the
    content cache stamp are present and non-empty; a value that was there
    (and non-empty) is kept, a missing counter reads 0 and a missing stamp
    reads the time of the call; running it again, at any later time, changes
    nothing. *)
Theorem init_storage_once (now later : Z) storage :
  let storage' := init_storage now storage in
  let prompts := sessionStorage storage !! "prompts" in
  let stamp := localStorage storage !! "contentCache" in
  truthy (sessionStorage storage' !! "prompts") = true
  ∧ truthy (localStorage storage' !! "contentCache") = true
  ∧ sessionStorage storage' !! "prompts" = (if truthy prompts then prompts else Some "0")
  ∧ parseInt (localStorage storage' !! "contentCache")
    = (if truthy stamp then parseInt stamp else Some now)
  ∧ init_storage later storage' = storage'.
Proof.
  cbv zeta. unfold init_storage. destruct storage as [session local]. simpl.
  assert (truthy (Some (pretty now)) = true) as Hnow.
  { simpl. rewrite bool_decide_eq_false_2; [done|]. apply pretty_Z_nonempty. }
  destruct (truthy (session !! "prompts")) eqn:Hp;
    destruct (truthy (local !! "contentCache")) eqn:Hc; simpl;
    rewrite ?lookup_insert_eq, ?Hp, ?Hc, ?Hnow; simpl;
    rewrite ?lookup_insert_eq, ?Hp, ?Hc, ?Hnow; simpl;
    repeat split; try done;
    apply (parseInt_template_literal (Some now)).
Qed.

Lemma init_storage_once_witness :
  let storage' := init_storage 1700 {| sessionStorage := ∅; localStorage := ∅ |} in
  sessionStorage storage' !! "prompts" = Some "0"
  ∧ localStorage storage' !! "contentCache" = Some "1700"
  ∧ init_storage 1800 storage' = storage'.
Proof.
  intros storage'.
  destruct (init_storage_once 1700 1800 {| sessionStorage := ∅; localStorage := ∅ |})
    as (_ & _ & Hp & _ & Hidem).
  split; [exact Hp|]. split; [reflexivity|exact Hidem].
Defined.

(** X8. When the stamp of the content cache reads as a time, a [cachebust]
    message purges the cache exactly when at least [contentCacheExpires] days
    have passed since the stamp; the purge re-stamps the cache with the time
    of the purge, and no further check purges it again before that many days
    have passed anew. *)
Theorem content_cache_expiry (contentCacheExpires now now' stamp : Z)
    (local : gmap string string) :
  parseInt (local !! "contentCache") = Some stamp →
  let window := (contentCacheExpires * 24 * 60 * 60 * 1000)%Z in
  let result := cachebust_expiry contentCacheExpires now now' local in
  ((window ≤ now - stamp)%Z →
   parseInt (fst result !! "contentCache") = Some now'
   ∧ snd result = [serviceWorker_postMessage sw_clear_content_cache]
   ∧ ∀ t t', (t - now' < window)%Z →
             cachebust_expiry contentCacheExpires t t' (fst result) = (fst result, []))
  ∧ ((now - stamp < window)%Z → result = (local, [])).
Proof.
  intros Hstamp window result. subst window.
  assert (result
          = if (contentCacheExpires * 24 * 60 * 60 * 1000 <=? now - stamp)%Z
            then (<["contentCache" := pretty now']> local,
                  [serviceWorker_postMessage sw_clear_content_cache])
            else (local, [])) as Hres.
  { unfold result, cachebust_expiry. by rewrite Hstamp. }
  clearbody result. subst result.
  split; intros Hw.
  - rewrite (proj2 (Z.leb_le _ _)) by lia. cbn [fst snd].
    rewrite lookup_insert_eq.
    split; [apply (parseInt_template_literal (Some now'))|]. split; [done|].
    intros t t' Ht. unfold cachebust_expiry. rewrite lookup_insert_eq.
    change (pretty now') with (number_to_string (Some now')).
    rewrite (parseInt_template_literal (Some now')). cbn [fmap option_fmap option_map JS.ge].
    by rewrite (proj2 (Z.leb_gt _ _)) by lia.
  - by rewrite (proj2 (Z.leb_gt _ _)) by lia.
Qed.

Lemma content_cache_expiry_witness :
  let day := 86400000%Z in
  let result := cachebust_expiry 1 (2 * day) (2 * day + 1) (localStorage Sample.three_prompts) in
  snd result = [serviceWorker_postMessage sw_clear_content_cache]
  ∧ cachebust_expiry 1 (3 * day) (3 * day) (fst result) = (fst result, []).
Proof.
  intros day result.
  destruct (content_cache_expiry 1 (2 * day) (2 * day + 1) 0
              (localStorage Sample.three_prompts) eq_refl) as (H & _).
  destruct H as (_ & Hout & Hagain); [subst day; lia|].
  split; [exact Hout|]. apply Hagain. subst day. lia.
Defined.

End WebStorage.

(** ** Replies to the active request *)

Section ActiveReplies.

Import Coordinator.

Variable parseHTML : string → Document.

Lemma match_hash_app (pre rest : string) :
  has_hash pre = false →
  match_hash (pre +:+ String "#" rest) = Some (String "#" (line rest)).
Proof.
  induction pre as [|c pre IH]; simpl; [done|].
  intros H. apply orb_false_elim in H as [Hc Hpre].
  rewrite Hc. by apply IH.
Qed.

Lemma match_hash_None (url : string) : has_hash url = false → match_hash url = None.
Proof.
  induction url as [|c url IH]; simpl; [done|].
  intros H. apply orb_false_elim in H as [Hc Hpre]. rewrite Hc. by apply IH.
Qed.


(** X9. A [hash-change] reply to the active request sets the fragment of the
    location to what follows the first [#] of the URL, up to the end of the
    line, and changes nothing else. If the URL holds no [#], the handler
    throws a [TypeError] instead and leaves the instance as it was: no
    fragment, no navigation. Whether the request is queued plays no role. *)
Theorem hash_change_reply (this : Pjax) (document : Document)
    (requestId url : string) (body error : option string) :
  activeRequestUid (state this) = Some requestId →
  let result :=
    handlePjaxResponse parseHTML document requestId "hash-change" url body error this in
  (has_hash url = false →
   result = (Throw (TypeError "Cannot read property '0' of null"), this))
  ∧ (∀ pre rest,
       url = pre +:+ String "#" rest →
       has_hash pre = false →
       result
       = (Normal tt,
          {| state := state this;
             navigationRequestQueue := navigationRequestQueue this;
             effects := effects this ++ [location_hash (line rest)] |})).
Proof.
  intros Hactive result. subst result.
  unfold handlePjaxResponse, getNavigaitonRequest, deref, bind, gets, ret, throw.
  cbn beta iota. rewrite Hactive. rewrite bool_decide_eq_true_2 by done.
  rewrite (bool_decide_eq_false_2 ("hash-change" = "external")) by done.
  rewrite (bool_decide_eq_true_2 ("hash-change" = "hash-change")) by done.
  split.
  - intros Hno. rewrite (match_hash_None url Hno). by destruct this.
  - intros pre rest -> Hpre. by rewrite (match_hash_app pre rest Hpre).
Qed.

(** X10. An [ok] reply to the active, queued request that names no target
    throws a [TypeError] when the body of the current document has no [main]
    element: nothing is logged, the location is not touched and the request
    stays in the queue, whatever the incoming document holds. *)
Theorem ok_reply_without_main (this : Pjax) (document : Document)
    (requestId url : string) (body error : option string)
    (i : nat) (r : NavigaitonRequest) :
  activeRequestUid (state this) = Some requestId →
  find requestId (navigationRequestQueue this) = Some (i, r) →
  targetSelector r = None →
  body_querySelector main_selector document = None →
  handlePjaxResponse parseHTML document requestId "ok" url body error this
  = (Throw (TypeError "Cannot read property 'getAttribute' of null"), this).
Proof.
  intros Hactive Hfind Htarget Hmain.
  unfold handlePjaxResponse, getNavigaitonRequest, deref, lift, bind, gets, ret.
  cbn beta iota. rewrite Hactive, Hfind.
  rewrite bool_decide_eq_true_2 by done.
  rewrite (bool_decide_eq_false_2 ("ok" = "external")) by done.
  rewrite (bool_decide_eq_false_2 ("ok" = "hash-change")) by done.
  rewrite (bool_decide_eq_true_2 ("ok" = "ok")) by done.
  cbn [snd fst]. unfold resolve_region. rewrite Htarget, Hmain. by destruct this.
Qed.

(** X11. A reply to the active request whose status is neither [ok] nor
    [hash-change] always ends in a full navigation: the handler returns
    normally, sets the location to the URL (after logging the failure, unless
    the status is [external]) and touches neither the queue nor the active
    identifier, even when the request is no longer queued. *)
Theorem active_reply_falls_back (this : Pjax) (document : Document)
    (requestId status url : string) (body error : option string) :
  activeRequestUid (state this) = Some requestId →
  status ≠ "ok" →
  status ≠ "hash-change" →
  handlePjaxResponse parseHTML document requestId status url body error this
  = (Normal tt,
     {| state := state this;
        navigationRequestQueue := navigationRequestQueue this;
        effects := effects this
                   ++ (if bool_decide (status = "external") then []
                       else [console_error (fetch_failed url error)])
                   ++ [location_href url] |}).
Proof.
  intros Hactive Hok Hhash.
  unfold handlePjaxResponse, getNavigaitonRequest, deref, bind, gets, ret, emit.
  cbn beta iota. rewrite Hactive. rewrite bool_decide_eq_true_2 by done.
  rewrite (bool_decide_eq_false_2 (status = "hash-change")) by done.
  rewrite (bool_decide_eq_false_2 (status = "ok")) by done.
  case_bool_decide; simpl; [done|]. by rewrite <- app_assoc.
Qed.

End ActiveReplies.

Lemma hash_change_reply_witness :
  let this := run Sample.parseHTML
                [Load "A" "/about#team" None None None None "https://djinnjs.test/about"] new in
  emitted Sample.parseHTML this
    (PjaxResponse Sample.home "A" "hash-change" "/about#team" None None)
  = [location_hash "team"]
  ∧ handlePjaxResponse Sample.parseHTML Sample.home "A" "hash-change" "/about" None None this
    = (Throw (TypeError "Cannot read property '0' of null"), this).
Proof.
  intros this. split; [reflexivity|].
  destruct (hash_change_reply Sample.parseHTML this Sample.home "A" "/about" None None eq_refl)
    as (H & _).
  apply H. reflexivity.
Defined.

Lemma ok_reply_without_main_witness :
  let this := run Sample.parseHTML
                [Load "A" "/about" None None None None "https://djinnjs.test/"] new in
  handlePjaxResponse Sample.parseHTML Sample.bare "A" "ok" "/about"
                     (Some Sample.about_body) None this
  = (Throw (TypeError "Cannot read property 'getAttribute' of null"), this).
Proof.
  intros this.
  apply (ok_reply_without_main Sample.parseHTML this Sample.bare "A" "/about" (Some Sample.about_body) None
           0 {| body := None; title := None; url := "/about"; history := push;
                requestUid := "A"; transition := None; transitionData := None;
                targetSelector := None |}); reflexivity.
Defined.

Lemma active_reply_falls_back_witness :
  let this := run Sample.parseHTML
                [Load "A" "/about" None None None None "https://djinnjs.test/"] new in
  emitted Sample.parseHTML this
    (PjaxResponse Sample.home "A" "error" "/about" None (Some "404"))
  = [console_error "Failed to fetch page: /about. Server responded with: 404";
     location_href "/about"].
Proof.
  intros this. unfold emitted, dispatch. cbn [handle].
  rewrite (active_reply_falls_back Sample.parseHTML this Sample.home "A" "error" "/about" None (Some "404"));
    [reflexivity|reflexivity|discriminate|discriminate].
Defined.

(** ** Where queued requests come from *)

Section Provenance.

Import Coordinator.

Variable parseHTML : string → Document.

Implicit Types (this : Pjax) (ev : Event) (evs : list Event).

(** The queue after a reply: as it was, one request shorter, or with the
    fragment and title stored on one request. *)
Lemma handlePjaxResponse_queue this document requestId status url body error :
  let queue := navigationRequestQueue this in
  let queue' :=
    navigationRequestQueue
      (snd (handlePjaxResponse parseHTML document requestId status url body error this)) in
  queue' = queue
  ∨ queue' = splice_first requestId queue
  ∨ (status = "ok"
     ∧ ∃ i r b t, find requestId queue = Some (i, r)
                  ∧ queue' = alter (set_body_title b t) i queue).
Proof.
  cbv zeta.
  destruct (decide (activeRequestUid (state this) = Some requestId)) as [Hactive|Hstale].
  - unfold handlePjaxResponse, getNavigaitonRequest, deref, lift, bind, gets, ret, throw,
      emit, set_queue.
    cbn beta iota. rewrite Hactive. rewrite bool_decide_eq_true_2 by done.
    destruct (bool_decide (status = "external")); [by left|].
    destruct (bool_decide (status = "hash-change")).
    { destruct (match_hash url); by left. }
    case_bool_decide as Hok; [|by left].
    destruct (find requestId (navigationRequestQueue this)) as [[i r]|] eqn:Hfind; [|by left].
    cbn [fst snd]. destruct (resolve_region document r) as [[selector currentMain]|e];
      [|by left].
    cbn [fst snd].
    destruct (querySelector selector _) as [incoming|], currentMain as [current|];
      simpl; [|by left..].
    right; right. split; [done|]. by eexists _, _, _, _.
  - rewrite handlePjaxResponse_stale by done.
    destruct (find requestId (navigationRequestQueue this)) as [[i r]|] eqn:Hf; simpl.
    + by right; left.
    + by left.
Qed.

Lemma Forall_splice_first (P : NavigaitonRequest → Prop) requestId
    (queue : list NavigaitonRequest) :
  Forall P queue → Forall P (splice_first requestId queue).
Proof.
  intros H. unfold splice_first. destruct (find requestId queue) as [[i r]|]; [|done].
  by apply Forall_delete.
Qed.

Lemma uids_splice_first_sublist requestId (queue : list NavigaitonRequest) :
  uids (splice_first requestId queue) `sublist_of` uids queue.
Proof.
  unfold splice_first, uids. destruct (find requestId queue) as [[i r]|]; [|done].
  rewrite list_fmap_delete. apply sublist_delete.
Qed.

(** X12. Nothing enters the queue but through a [load], and the queue keeps
    the order of the loads: after any sequence of messages, the identifiers of
    the queued requests are a subsequence of the identifiers issued, in the
    order they were issued. *)
Theorem queue_in_load_order evs :
  uids (navigationRequestQueue (run parseHTML evs new)) `sublist_of` omap issued evs.
Proof.
  induction evs as [|ev evs IH] using rev_ind; [done|].
  rewrite run_snoc, omap_app.
  destruct (dispatch_spec parseHTML (run parseHTML evs new) ev) as (out & _ & H).
  destruct ev as [uid url tr td h target cur|document id status url body error|id];
    cbn [omap list_omap issued].
  - destruct H as (_ & -> & _). by apply sublist_app.
  - rewrite app_nil_r. destruct H as (_ & H). case_bool_decide.
    + destruct H as (-> & _). done.
    + destruct H as (-> & _). etrans; [apply uids_splice_first_sublist|done].
  - rewrite app_nil_r. destruct H as (_ & -> & _).
    etrans; [apply uids_splice_first_sublist|done].
Qed.

(** X13. A queued request is never rewritten apart from its fragment and
    title: after any sequence of messages, every queued request carries the
    URL, history mode, transition, transition data and target of a [load] of
    the sequence with its identifier. Every call of the transition manager in
    the log was made for such a request, with the selector, fragment,
    transition and data that request holds, so that the history mode the
    callback forwards to [finalize-pjax] is the one the load asked for. *)
Theorem requests_come_from_loads evs :
  let this := run parseHTML evs new in
  Forall (λ r, Exists (loaded_by r) evs) (navigationRequestQueue this)
  ∧ Forall (swap_of evs) (effects this).
Proof.
  cbv zeta. induction evs as [|ev evs [IHq IHe]] using rev_ind; [by split|].
  rewrite run_snoc. set (this := run parseHTML evs new) in *.
  assert (Hmono : ∀ r, Exists (loaded_by r) evs → Exists (loaded_by r) (evs ++ [ev])).
  { intros r H. apply Exists_app. by left. }
  assert (Hq : Forall (λ r, Exists (loaded_by r) (evs ++ [ev])) (navigationRequestQueue this)).
  { eapply Forall_impl; [exact IHq|]. exact Hmono. }
  assert (He : Forall (swap_of (evs ++ [ev])) (effects this)).
  { eapply Forall_impl; [exact IHe|]. intros [] H; try done.
    destruct H as (H & ?). split; [by apply Hmono|done]. }
  assert (Hset : ∀ r b t, Exists (loaded_by r) (evs ++ [ev]) →
                          Exists (loaded_by (set_body_title b t r)) (evs ++ [ev])).
  { intros r b t H. eapply Exists_impl; [exact H|]. by intros []. }
  destruct (dispatch_spec parseHTML this ev) as (out & Heff & H).
  rewrite Heff.
  destruct ev as [uid url tr td h target cur|document id status url body error|id].
  - unfold dispatch. cbn [handle]. rewrite navigate_spec. cbn [snd navigationRequestQueue].
    destruct H as (_ & _ & ->). split.
    + apply Forall_app. split; [done|]. apply Forall_singleton.
      apply Exists_app. right. apply Exists_cons. left. by repeat split.
    + apply Forall_app. split; [done|]. by repeat constructor.
  - split.
    + unfold dispatch. cbn [handle].
      destruct (handlePjaxResponse_queue this document id status url body error)
        as [->| [->| (_ & i & r0 & b & t & _ & ->)]].
      * done.
      * by apply Forall_splice_first.
      * apply Forall_alter; [done|]. intros r _. apply Hset.
    + apply Forall_app. split; [done|].
      destruct H as (_ & H). case_bool_decide.
      * destruct H as (_ & Hn & _). eapply Forall_impl; [exact Hn|]. by intros [].
      * destruct H as (_ & Hc & _). eapply Forall_impl; [exact Hc|]. by intros [].
  - destruct H as (_ & -> & _). split; [by apply Forall_splice_first|].
    apply Forall_app. split; [done|].
    assert (out = emitted parseHTML this (CssReady id)) as -> by (symmetry; by apply emitted_spec).
    unfold emitted, dispatch. cbn [handle]. rewrite swapPjaxContent_spec.
    destruct (find id (navigationRequestQueue this)) as [[i r]|] eqn:Hf; cbn [snd effects].
    + rewrite drop_app_length.
      case_bool_decide; [|done]. constructor; [done|]. constructor; [|done].
      repeat split; try done.
      apply list_find_Some in Hf as (Hi & _).
      rewrite Forall_forall in Hq. apply Hq. by apply list_elem_of_lookup_2 in Hi.
    + by rewrite drop_all.
Qed.

End Provenance.

(** A visitor goes back in history: the replayed load asks for [replace], and
    that is what the swap's callback forwards to [finalize-pjax]. *)
Lemma requests_come_from_loads_witness :
  let evs :=
    [ Coordinator.inbox_load "A" "https://djinnjs.test/news"
        {| Coordinator.load_url := "/about"; Coordinator.load_transition := None;
           Coordinator.load_transitionData := None;
           Coordinator.load_history := Some replace; Coordinator.load_target := None |};
      PjaxResponse Sample.home "A" "ok" "/about" (Some Sample.about_body) None;
      CssReady "A" ] in
  Forall (Coordinator.swap_of evs) (effects (run Sample.parseHTML evs new))
  ∧ ∃ r, last (effects (run Sample.parseHTML evs new))
         = Some (transitionManager main_selector (Some "NEW") None None r)
         ∧ history r = replace.
Proof.
  intros evs.
  destruct (requests_come_from_loads Sample.parseHTML evs) as (_ & H).
  split; [exact H|]. eexists. split; reflexivity.
Defined.

Lemma queue_in_load_order_witness :
  let evs :=
    [ Load "A" "/about" None None None None "https://djinnjs.test/";
      Load "B" "/news" None None None None "https://djinnjs.test/";
      Load "C" "/legal" None None None None "https://djinnjs.test/";
      PjaxResponse Sample.home "B" "ok" "/news" (Some Sample.about_body) None ] in
  uids (navigationRequestQueue (run Sample.parseHTML evs new)) = ["A"; "C"]
  ∧ ["A"; "C"] `sublist_of` ["A"; "B"; "C"].
Proof.
  intros evs. split; [reflexivity|].
  exact (queue_in_load_order Sample.parseHTML evs).
Defined.

(** ** Prefetching, link by link *)

Section PrefetchOnce.

Local Abbreviation mark := (setAttribute "pjax-prefetched" "true").
Local Abbreviation marked P := (λ e : Element, if P e then mark e else e).
Local Abbreviation selected w e := (inBody e && matches (prefetchable w) e).
Local Abbreviation below_navigation e :=
  (bool_decide ("header" ∈ ancestors e) || bool_decide ("nav" ∈ ancestors e)).

Lemma select_spec (P : Element → bool) (i : nat) (l : list Element) (ref : nat) (e : Element) :
  (ref, e) ∈ select P i l ↔ (i ≤ ref)%nat ∧ l !! (ref - i) = Some e ∧ P e = true.
Proof.
  revert i. induction l as [|x l IH]; intros i; simpl.
  - split; [by intros ?%elem_of_nil|by intros (_ & ? & _)].
  - assert ((ref, e) ∈ select P (S i) l
            ↔ (S i ≤ ref)%nat ∧ (x :: l) !! (ref - i) = Some e ∧ P e = true) as Htail.
    { rewrite IH. split; intros (Hle & Hl & HP); (split; [lia|]); (split; [|done]).
      - by replace (ref - i) with (S (ref - S i)) by lia.
      - by replace (ref - i) with (S (ref - S i)) in Hl by lia. }
    destruct (P x) eqn:HPx.
    + rewrite elem_of_cons, Htail. split.
      * intros [[= -> ->]|(Hle & Hl & HP)].
        -- rewrite Nat.sub_diag. done.
        -- split; [lia|done].
      * intros (Hle & Hl & HP). destruct (decide (ref = i)) as [->|Hne].
        -- left. rewrite Nat.sub_diag in Hl. by injection Hl as ->.
        -- right. split; [lia|done].
    + rewrite Htail. split.
      * intros (Hle & Hl & HP). split; [lia|done].
      * intros (Hle & Hl & HP). destruct (decide (ref = i)) as [->|Hne].
        -- rewrite Nat.sub_diag in Hl. injection Hl as ->. congruence.
        -- split; [lia|done].
Qed.

Lemma select_none (P : Element → bool) (i : nat) (l : list Element) :
  Forall (λ e, P e = false) l → select P i l = [] ∧ marked P <$> l = l.
Proof.
  intros H. revert i. induction H as [|x l Hx _ IH]; intros i; simpl; [done|].
  rewrite Hx. split; [apply IH|]. f_equal. apply (IH 0).
Qed.

Lemma mark_and_collect_select (P : Element → bool) (t : string)
    (before l : list Element) (urls : list string) :
  mark_and_collect (select P (length before) l)
                   {| DOM.title := t; elements := before ++ l |} urls
  = ({| DOM.title := t; elements := before ++ (marked P <$> l) |},
     urls ++ ((λ link, href (snd link)) <$> select P (length before) l)).
Proof.
  unfold mark_and_collect. revert before urls.
  induction l as [|e l IH]; intros before urls; [simpl; by rewrite !app_nil_r|].
  cbn [select fmap list_fmap].
  assert (∀ x : Element, before ++ x :: l = (before ++ [x]) ++ l) as Hsnoc.
  { intros x. by rewrite <- app_assoc. }
  assert (∀ x : Element, S (length before) = length (before ++ [x])) as Hlen.
  { intros x. rewrite length_app. simpl. lia. }
  destruct (P e) eqn:HP.
  - assert (alter mark (length before) (before ++ e :: l) = before ++ mark e :: l) as Halter.
    { rewrite <- (Nat.add_0_r (length before)). by rewrite alter_app_r. }
    cbn [foldl fst snd]. unfold update at 2. cbn [DOM.title elements].
    rewrite Halter, (Hsnoc (mark e)), (Hlen (mark e)), IH.
    rewrite <- !app_assoc. done.
  - rewrite (Hsnoc e), (Hlen e), IH. by rewrite <- app_assoc.
Qed.

Lemma mark_and_observe_select (P : Element → bool) (t : string)
    (before l : list Element) (observed : list Effect) :
  foldl (λ acc (link : nat * Element),
           (update mark (fst link) (fst acc), snd acc ++ [io_observe (fst link)]))
        ({| DOM.title := t; elements := before ++ l |}, observed)
        (select P (length before) l)
  = ({| DOM.title := t; elements := before ++ (marked P <$> l) |},
     observed ++ ((λ link, io_observe (fst link)) <$> select P (length before) l)).
Proof.
  revert before observed.
  induction l as [|e l IH]; intros before observed; [simpl; by rewrite !app_nil_r|].
  cbn [select fmap list_fmap].
  assert (∀ x : Element, before ++ x :: l = (before ++ [x]) ++ l) as Hsnoc.
  { intros x. by rewrite <- app_assoc. }
  assert (∀ x : Element, S (length before) = length (before ++ [x])) as Hlen.
  { intros x. rewrite length_app. simpl. lia. }
  destruct (P e) eqn:HP.
  - assert (alter mark (length before) (before ++ e :: l) = before ++ mark e :: l) as Halter.
    { rewrite <- (Nat.add_0_r (length before)). by rewrite alter_app_r. }
    cbn [foldl fst snd]. unfold update at 2. cbn [DOM.title elements].
    rewrite Halter, (Hsnoc (mark e)), (Hlen (mark e)), IH.
    rewrite <- !app_assoc. done.
  - rewrite (Hsnoc e), (Hlen e), IH. by rewrite <- app_assoc.
Qed.

(** A marked link matches none of the three selections. *)
Lemma prefetchable_mark (w : option string) (e : Element) :
  selected w (mark e) = false.
Proof.
  unfold matches, prefetchable. simpl.
  rewrite (bool_decide_eq_true_2
             (is_Some (<["pjax-prefetched":="true"]> (attributes e) !! "pjax-prefetched"))).
  - simpl. by rewrite !andb_false_r.
  - rewrite lookup_insert_eq. eauto.
Qed.

(** Below a [header] or a [nav], a link is selected there exactly when it is
    selected in the body at large. *)
Lemma prefetchable_within (w : string) (e : Element) :
  selected (Some w) e = selected None e && bool_decide (w ∈ ancestors e).
Proof.
  unfold matches, prefetchable. simpl. rewrite !andb_true_r. by rewrite !andb_assoc.
Qed.

(** What two and three rounds of marking leave of an element. *)
Lemma marked_twice (e : Element) :
  let e1 := if selected (Some "header") e then mark e else e in
  let e2 := if selected (Some "nav") e1 then mark e1 else e1 in
  let e3 := if selected None e2 then mark e2 else e2 in
  e2 = (if selected None e && below_navigation e then mark e else e)
  ∧ e3 = (if selected None e then mark e else e)
  ∧ selected None e2 = selected None e && negb (below_navigation e)
  ∧ (selected (Some "header") e = false →
     selected (Some "nav") e1 = selected None e && bool_decide ("nav" ∈ ancestors e)).
Proof.
  cbv zeta. rewrite (prefetchable_within "header" e).
  destruct (selected None e) eqn:Ha;
    destruct (bool_decide ("header" ∈ ancestors e)) eqn:Hh;
    destruct (bool_decide ("nav" ∈ ancestors e)) eqn:Hn;
    cbn [andb orb negb];
    rewrite ?prefetchable_mark, ?(prefetchable_within "nav" e), ?Ha, ?Hh, ?Hn;
    cbn [andb orb negb]; rewrite ?prefetchable_mark, ?Ha; done.
Qed.

(** [prefetchLinks] past its first guard. *)
Lemma prefetchLinks_open (env : Env.Env) (document : Document) :
  Env.connection env = Env._3g ∨ Env.connection env = Env._4g →
  Env.dataSaver env = false →
  let d0 := elements document in
  let d1 := (λ e, if selected (Some "header") e then mark e else e) <$> d0 in
  let d2 := (λ e, if selected (Some "nav") e then mark e else e) <$> d1 in
  let d3 := (λ e, if selected None e then mark e else e) <$> d2 in
  let urls :=
    ((λ link, href (snd link)) <$> select (λ e, selected (Some "header") e) 0 d0)
    ++ ((λ link, href (snd link)) <$> select (λ e, selected (Some "nav") e) 0 d1) in
  prefetchLinks env true document
  = if bool_decide (Env.connection env = Env._3g)
    then ({| DOM.title := DOM.title document; elements := d2 |},
          [worker_postMessage (worker_prefetch urls)])
    else ({| DOM.title := DOM.title document; elements := d3 |},
          worker_postMessage (worker_prefetch urls)
          :: ((λ link, io_observe (fst link)) <$> select (λ e, selected None e) 0 d2)).
Proof.
  intros Hconn Hsaver. cbv zeta. unfold prefetchLinks, body_querySelectorAll.
  rewrite Hsaver.
  rewrite (bool_decide_eq_false_2 (Env.connection env = Env._2g))
    by (destruct Hconn as [-> | ->]; done).
  rewrite (bool_decide_eq_false_2 (Env.connection env = Env.slow_2g))
    by (destruct Hconn as [-> | ->]; done).
  cbn [negb orb]. destruct document as [t d0]. cbn [DOM.title elements].
  pose proof (mark_and_collect_select (λ e, selected (Some "header") e) t [] d0 []) as H1.
  cbn [length app] in H1. rewrite H1. cbn [elements].
  pose proof (mark_and_collect_select (λ e, selected (Some "nav") e) t []
                ((λ e, if selected (Some "header") e then mark e else e) <$> d0)
                ((λ link, href (snd link))
                   <$> select (λ e, selected (Some "header") e) 0 d0)) as H2.
  cbn [length app] in H2. rewrite H2. cbn [elements].
  case_bool_decide; [done|].
  unfold mark_and_observe.
  pose proof (mark_and_observe_select (λ e, selected None e) t []
                ((λ e, if selected (Some "nav") e then mark e else e)
                   <$> ((λ e, if selected (Some "header") e then mark e else e) <$> d0))
                []) as H3.
  cbn [length app] in H3. rewrite H3. done.
Qed.

(** X14. Past its guard (3g or 4g, a service worker, no data saver),
    [prefetchLinks] posts exactly one [prefetch] message to the web worker,
    first in its log and even when it carries no URL, and marks every link it
    has dealt with. A second call on the resulting document therefore posts
    an empty list, observes nothing and leaves the document as it is: no link
    is prefetched or observed twice. *)
Theorem prefetchLinks_once (env : Env.Env) (document : Document) :
  Env.connection env = Env._3g ∨ Env.connection env = Env._4g →
  Env.dataSaver env = false →
  let first := prefetchLinks env true document in
  (∃ urls observed, snd first = worker_postMessage (worker_prefetch urls) :: observed
                    ∧ Forall (λ e, is_io_observe e = true) observed)
  ∧ prefetchLinks env true (fst first)
    = (fst first, [worker_postMessage (worker_prefetch [])]).
Proof.
  intros Hconn Hsaver first. subst first.
  rewrite (prefetchLinks_open env document Hconn Hsaver).
  assert (∀ (d : list Element),
             Forall (λ e, selected None e = false) d →
             prefetchLinks env true {| DOM.title := DOM.title document; elements := d |}
             = ({| DOM.title := DOM.title document; elements := d |},
                [worker_postMessage (worker_prefetch [])])) as Hclean.
  { intros d Hd.
    assert (∀ w, Forall (λ e, selected (Some w) e = false) d) as Hw.
    { intros w. eapply Forall_impl; [exact Hd|]. intros e He. cbv beta in *.
      by rewrite prefetchable_within, He. }
    rewrite (prefetchLinks_open env _ Hconn Hsaver). cbn [DOM.title elements].
    destruct (select_none (λ e, selected (Some "header") e) 0 d (Hw "header")) as [-> ->].
    destruct (select_none (λ e, selected (Some "nav") e) 0 d (Hw "nav")) as [-> ->].
    destruct (select_none (λ e, selected None e) 0 d Hd) as [-> ->].
    by case_bool_decide. }
  case_bool_decide as H3g; cbn [fst snd].
  - split; [by eexists _, []|].
    assert (Forall (λ e, selected (Some "header") e = false ∧ selected (Some "nav") e = false)
              ((λ e, if selected (Some "nav") e then mark e else e)
                 <$> ((λ e, if selected (Some "header") e then mark e else e)
                        <$> elements document))) as Hd.
    { rewrite <- list_fmap_compose. apply Forall_fmap, Forall_forall. intros e _. simpl.
      destruct (selected (Some "header") e) eqn:Hh.
      - rewrite prefetchable_mark. by rewrite !prefetchable_mark.
      - destruct (selected (Some "nav") e) eqn:Hn; [by rewrite !prefetchable_mark|done]. }
    rewrite (prefetchLinks_open env _ Hconn Hsaver). cbn [DOM.title elements].
    rewrite bool_decide_eq_true_2 by done.
    destruct (select_none (λ e, selected (Some "header") e) 0 _
                (Forall_impl _ _ _ Hd (λ _ H, proj1 H))) as [-> ->].
    destruct (select_none (λ e, selected (Some "nav") e) 0 _
                (Forall_impl _ _ _ Hd (λ _ H, proj2 H))) as [-> ->].
    done.
  - split.
    { eexists _, _. split; [done|]. apply Forall_fmap, Forall_forall. by intros. }
    apply Hclean. rewrite <- !list_fmap_compose. apply Forall_fmap, Forall_forall.
    intros e _. simpl. destruct (marked_twice e) as (_ & -> & _).
    destruct (selected None e) eqn:Ha; [by rewrite prefetchable_mark|done].
Qed.

(** X15. Past its guard, [prefetchLinks] deals with every prefetchable link
    of the body (an anchor with an [href], no [target] and no
    [pjax-prefetched] mark) in exactly one way. Below a [header] or a [nav]
    its URL is in the list posted to the web worker and it is never put under
    observation; elsewhere it is put under observation, on 4g only. A link is
    marked exactly when it has been dealt with, and no other element is
    touched or observed. *)
Theorem prefetchLinks_each_link (env : Env.Env) (document : Document) (i : nat) (e : Element) :
  Env.connection env = Env._3g ∨ Env.connection env = Env._4g →
  Env.dataSaver env = false →
  elements document !! i = Some e →
  let result := prefetchLinks env true document in
  let on_4g := bool_decide (Env.connection env = Env._4g) in
  elements (fst result) !! i
  = Some (if selected None e && (below_navigation e || on_4g) then mark e else e)
  ∧ (selected None e = true → below_navigation e = true →
     ∃ urls observed,
       snd result = worker_postMessage (worker_prefetch urls) :: observed ∧ href e ∈ urls)
  ∧ (io_observe i ∈ snd result
     ↔ Env.connection env = Env._4g ∧ selected None e = true ∧ below_navigation e = false).
Proof.
  intros Hconn Hsaver He result on_4g. subst result on_4g.
  rewrite (prefetchLinks_open env document Hconn Hsaver).
  destruct (marked_twice e) as (H2 & H3 & Hsel2 & Hnav). cbv zeta in H2, H3, Hsel2, Hnav.
  rewrite H2 in H3, Hsel2.
  set (d0 := elements document) in *.
  set (d1 := (λ e, if selected (Some "header") e then mark e else e) <$> d0).
  set (d2 := (λ e, if selected (Some "nav") e then mark e else e) <$> d1).
  assert (d1 !! i = Some (if selected (Some "header") e then mark e else e)) as Hd1.
  { unfold d1. by rewrite list_lookup_fmap, He. }
  assert (d2 !! i = Some (if selected None e && below_navigation e then mark e else e)) as Hd2.
  { unfold d2. rewrite list_lookup_fmap, Hd1. simpl. by rewrite H2. }
  assert (selected None e = true → below_navigation e = true →
          href e ∈ ((λ link, href (snd link)) <$> select (λ e, selected (Some "header") e) 0 d0)
                   ++ ((λ link, href (snd link)) <$> select (λ e, selected (Some "nav") e) 0 d1))
    as Hurl.
  { intros Ha Hb. apply elem_of_app.
    destruct (selected (Some "header") e) eqn:Hh.
    - left. apply list_elem_of_fmap. exists (i, e). split; [done|].
      apply select_spec. rewrite Nat.sub_0_r. split; [lia|done].
    - right. apply list_elem_of_fmap. exists (i, e). split; [done|].
      apply select_spec. rewrite Nat.sub_0_r. split; [lia|]. split; [done|].
      rewrite (prefetchable_within "nav" e), Ha.
      rewrite (prefetchable_within "header" e), Ha in Hh. simpl in Hh. rewrite Hh in Hb.
      simpl in *. done. }
  destruct (decide (Env.connection env = Env._3g)) as [H3g|H3g];
    [rewrite (bool_decide_eq_true_2 _ H3g)|rewrite (bool_decide_eq_false_2 _ H3g)];
    cbn [fst snd elements].
  - rewrite (bool_decide_eq_false_2 (Env.connection env = Env._4g))
      by (intros H4g; rewrite H3g in H4g; done).
    rewrite orb_false_r. split; [done|]. split.
    + intros Ha Hb. eexists _, []. split; [done|]. by apply Hurl.
    + split.
      * intros Hin. apply elem_of_cons in Hin as [?|?%elem_of_nil]; done.
      * intros (H4g & _). rewrite H3g in H4g. done.
  - assert (Env.connection env = Env._4g) as H4g by (destruct Hconn; [done|done]).
    rewrite (bool_decide_eq_true_2 _ H4g). rewrite orb_true_r, andb_true_r.
    split.
    { rewrite list_lookup_fmap, Hd2. cbn [fmap option_fmap option_map]. by rewrite H3. }
    split.
    { intros Ha Hb. eexists _, _. split; [done|]. by apply Hurl. }
    rewrite elem_of_cons, list_elem_of_fmap. split.
    + intros [?|((j & x) & Heq & Hin)]; [done|]. simpl in Heq. injection Heq as <-.
      apply select_spec in Hin as (_ & Hx & Hsel). rewrite Nat.sub_0_r, Hd2 in Hx.
      injection Hx as <-. rewrite Hsel2 in Hsel.
      apply andb_prop in Hsel as [Ha Hb]. apply negb_true_iff in Hb. done.
    + intros (_ & Ha & Hb). right.
      exists (i, if selected None e && below_navigation e then mark e else e).
      split; [done|]. apply select_spec. rewrite Nat.sub_0_r.
      split; [lia|]. split; [done|]. rewrite Hsel2, Ha, Hb. done.
Qed.

End PrefetchOnce.

Lemma prefetchLinks_once_witness :
  let env := {| Env.connection := Env._4g; Env.dataSaver := false |} in
  let first := prefetchLinks env true Sample.home in
  snd first
  = [worker_postMessage (worker_prefetch ["https://djinnjs.test/about"]);
     io_observe 6; io_observe 7]
  ∧ prefetchLinks env true (fst first) = (fst first, [worker_postMessage (worker_prefetch [])]).
Proof.
  intros env first. split; [reflexivity|].
  destruct (prefetchLinks_once env Sample.home) as (_ & H);
    [by right|reflexivity|exact H].
Defined.

Lemma prefetchLinks_each_link_witness :
  let env := {| Env.connection := Env._4g; Env.dataSaver := false |} in
  let result := prefetchLinks env true Sample.home in
  (io_observe 7 ∈ snd result) ∧ ¬ (io_observe 3 ∈ snd result).
Proof.
  intros env result.
  destruct (elements Sample.home !! 7) as [news|] eqn:Hnews; [|discriminate].
  destruct (elements Sample.home !! 3) as [about|] eqn:Habout; [|discriminate].
  destruct (prefetchLinks_each_link env Sample.home 7 news) as (_ & _ & H7);
    [by right|reflexivity|exact Hnews|].
  destruct (prefetchLinks_each_link env Sample.home 3 about) as (_ & _ & H3);
    [by right|reflexivity|exact Habout|].
  vm_compute in Hnews. injection Hnews as <-.
  vm_compute in Habout. injection Habout as <-.
  split.
  - apply H7. split; [reflexivity|]. split; reflexivity.
  - intros Hin. apply H3 in Hin as (_ & _ & Hb). discriminate Hb.
Defined.

(** ** Links scrolling into view *)

Section IntersectionCallback.

Import Coordinator.

Lemma prefetchLink_fold (links : list IntersectionObserverEntry)
    (unobserved : list nat) (urls : list string) :
  foldl (λ acc entry,
           if isIntersecting entry
           then (fst acc ++ [fst (target entry)], snd acc ++ [href (snd (target entry))])
           else acc)
        (unobserved, urls) links
  = (unobserved ++ ((λ en, fst (target en)) <$> filter (λ en, isIntersecting en = true) links),
     urls ++ ((λ en, href (snd (target en))) <$> filter (λ en, isIntersecting en = true) links)).
Proof.
  revert unobserved urls. induction links as [|en links IH]; intros unobserved urls.
  - simpl. by rewrite !app_nil_r.
  - cbn [foldl]. rewrite filter_cons. destruct (isIntersecting en) eqn:Hen.
    + rewrite decide_True by done. rewrite IH.
      cbn [fst snd fmap list_fmap]. by rewrite <- !app_assoc.
    + rewrite decide_False by done. by rewrite IH.
Qed.

(** X16. The callback of the intersection observer unobserves exactly the
    links that intersect, in the order of its entries, and posts their URLs
    in one [prefetch] message; when no entry intersects it posts nothing, so
    it never posts an empty list. *)
Theorem prefetchLink_batches (links : list IntersectionObserverEntry) :
  let intersecting := filter (λ en, isIntersecting en = true) links in
  let result := prefetchLink links in
  fst result = (λ en, fst (target en)) <$> intersecting
  ∧ snd result
    = (if bool_decide (intersecting = []) then []
       else [worker_postMessage
               (worker_prefetch ((λ en, href (snd (target en))) <$> intersecting))])
  ∧ ∀ urls, worker_postMessage (worker_prefetch urls) ∈ snd result → urls ≠ [].
Proof.
  cbv zeta. unfold prefetchLink. rewrite prefetchLink_fold. cbn [app fst snd].
  destruct (filter (λ en, isIntersecting en = true) links) as [|en rest] eqn:Hf.
  - simpl. split; [done|]. split; [done|]. by intros urls ?%elem_of_nil.
  - cbn [fmap list_fmap]. rewrite bool_decide_eq_false_2 by done.
    split; [done|]. split; [done|].
    intros urls Hin. apply elem_of_cons in Hin as [[= ->]|?%elem_of_nil]; done.
Qed.

Lemma prefetchLink_batches_witness :
  let link i := {| isIntersecting := bool_decide (i ≠ 6);
                   target := (i, default (Sample.element "a" [] [] [] "" "")
                                         (elements Sample.home !! i)) |} in
  prefetchLink [link 6; link 7] = ([7], [worker_postMessage
                                            (worker_prefetch ["https://djinnjs.test/news"])])
  ∧ prefetchLink [link 6] = ([], []).
Proof.
  intros link.
  destruct (prefetchLink_batches [link 6; link 7]) as (H1 & H2 & _).
  destruct (prefetchLink_batches [link 6]) as (H3 & H4 & _).
  split.
  - destruct (prefetchLink [link 6; link 7]) as [u o]. simpl in H1, H2. by rewrite H1, H2.
  - destruct (prefetchLink [link 6]) as [u o]. simpl in H3, H4. by rewrite H3, H4.
Defined.

End IntersectionCallback.

(** ** The transition manager *)

(** X17. The transition manager always hands the selector, the new HTML and
    the transition data on unchanged. On a 2g or slow-2g connection it runs
    [none] whatever was asked for, and stays silent. Otherwise the name is
    the requested one, or the default when none (or an empty one) is given:
    [slide] and [fade] run as named, any other name runs [none], and a name
    that is none of the three is reported on the console in debug mode
    only. *)
Theorem transition_choice (connection : Env.NetworkType) (debug : bool)
    (defaultTransition : string) (selector : Selector)
    (newHTML transition transitionData : option string) :
  let result :=
    Transition.transitionManager connection debug defaultTransition selector newHTML
                                 transition transitionData in
  let name := if truthy transition then default "" transition else defaultTransition in
  let slow := bool_decide (connection = Env._2g ∨ connection = Env.slow_2g) in
  Transition.selector (fst result) = selector
  ∧ Transition.newHTML (fst result) = newHTML
  ∧ Transition.transitionData (fst result) = transitionData
  ∧ Transition.effect (fst result)
    = (if slow then Transition.none
       else if bool_decide (name = "slide") then Transition.slide
       else if bool_decide (name = "fade") then Transition.fade
       else Transition.none)
  ∧ (snd result ≠ []
     ↔ slow = false ∧ debug = true ∧ name ≠ "slide" ∧ name ≠ "fade" ∧ name ≠ "none").
Proof.
  cbv zeta. unfold Transition.transitionManager.
  assert ((match transition with
           | Some t => if bool_decide (t = "") then defaultTransition else t
           | None => defaultTransition
           end)
          = (if truthy transition then default "" transition else defaultTransition)) as ->.
  { destruct transition as [t|]; simpl; [|done]. by case_bool_decide. }
  set (name := if truthy transition then default "" transition else defaultTransition).
  destruct connection; simpl;
    repeat (case_bool_decide; simpl; try done);
    try (destruct debug; simpl);
    repeat split; try done; try naive_solver.
Qed.

Lemma transition_choice_witness :
  Transition.effect
    (fst (Transition.transitionManager Env._2g true "fade" main_selector (Some "NEW")
            (Some "slide") None)) = Transition.none
  ∧ Transition.effect
      (fst (Transition.transitionManager Env._4g true "fade" main_selector (Some "NEW")
              None None)) = Transition.fade
  ∧ snd (Transition.transitionManager Env._4g true "fade" main_selector (Some "NEW")
           (Some "zoom") None) = ["Undefined transition handle: zoom"].
Proof.
  destruct (transition_choice Env._2g true "fade" main_selector (Some "NEW") (Some "slide") None)
    as (_ & _ & _ & H & _).
  split; [exact H|]. split; reflexivity.
Defined.

(** ** Finalizing a navigation *)

Section Finalize.

Import Coordinator.


Lemma listeners_prefetched (e : Element) :
  listeners (setAttribute "pjax-prefetched" "true" e) = listeners e.
Proof. done. Qed.




End Finalize.


(** ** History entries and their replay *)

Section HistoryReplay.

Import Coordinator.

Lemma updateHistory_wf (title url : string) (mode : HistoryMode) (h : History.SessionHistory) :
  History.wf h →
  History.wf (updateHistory title url mode h)
  ∧ History.state (updateHistory title url mode h) = Some {| History.url := url |}.
Proof.
  unfold History.wf, History.state. intros Hwf.
  assert (length (take (S (History.current h)) (History.entries h)) = S (History.current h))
    as Htake by (rewrite length_take; lia).
  destruct mode; simpl.
  - rewrite length_app, Htake. simpl. split; [lia|].
    rewrite lookup_app_r by lia. by rewrite Htake, Nat.sub_diag.
  - rewrite length_insert. split; [done|]. by rewrite list_lookup_insert_eq.
Qed.

(** X19. Once [init] has run, and after any number of history commits, the
    window still has a current entry and the state of that entry records the
    URL committed last (the address of the page if nothing was committed). A
    [popstate] event on such an entry is replayed as a [load] of that URL with
    mode [replace] and nothing else, whose commit leaves the length of the
    history as it is; an entry whose URL is empty is not replayed. *)
Theorem history_replay (href title : string)
    (finalized : list (string * string * HistoryMode)) (h : History.SessionHistory) :
  History.wf h →
  let h' := commits finalized (init_history href title h) in
  let url := match last finalized with Some c => snd (fst c) | None => href end in
  History.wf h'
  ∧ History.state h' = Some {| History.url := url |}
  ∧ hijackPopstate (History.state h')
    = (if bool_decide (url = "") then None
       else Some {| load_url := url; load_transition := None; load_transitionData := None;
                    load_history := Some replace; load_target := None |})
  ∧ ∀ t, History.length (updateHistory t url replace h') = History.length h'.
Proof.
  intros Hwf. cbv zeta.
  assert (History.wf (commits finalized (init_history href title h))
          ∧ History.state (commits finalized (init_history href title h))
            = Some {| History.url := match last finalized with
                                     | Some c => snd (fst c) | None => href end |})
    as [Hwf' Hstate].
  { induction finalized as [|c finalized IH] using rev_ind.
    - apply (updateHistory_wf title href replace h Hwf).
    - unfold commits. rewrite foldl_snoc, last_snoc. fold (commits finalized).
      apply updateHistory_wf. by destruct IH. }
  split; [done|]. split; [done|]. split.
  - rewrite Hstate. unfold hijackPopstate. simpl. by case_bool_decide.
  - intros t. unfold History.length. simpl. by rewrite length_insert.
Qed.

End HistoryReplay.

Lemma history_replay_witness :
  let h := Coordinator.commits [("About", "/about", push); ("News", "/news", replace)]
             (Coordinator.init_history "https://djinnjs.test/" "Home"
                {| History.entries := [{| History.entry_state := None;
                                          History.entry_title := "";
                                          History.entry_url := "https://djinnjs.test/" |}];
                   History.current := 0 |}) in
  History.length h = 2
  ∧ Coordinator.hijackPopstate (History.state h)
    = Some {| Coordinator.load_url := "/news"; Coordinator.load_transition := None;
              Coordinator.load_transitionData := None;
              Coordinator.load_history := Some replace; Coordinator.load_target := None |}.
Proof.
  intros h. split; [reflexivity|].
  destruct (history_replay "https://djinnjs.test/" "Home"
              [("About", "/about", push); ("News", "/news", replace)]
              {| History.entries := [{| History.entry_state := None;
                                        History.entry_title := "";
                                        History.entry_url := "https://djinnjs.test/" |}];
                 History.current := 0 |}) as (_ & _ & H & _).
  - unfold History.wf. simpl. lia.
  - exact H.
Defined.

(** ** Messages of the web worker *)

Section WorkerMessages.

Import Coordinator.

Variable parseHTML : string → Document.

(** X20. No message of the web worker changes the active identifier or
    calls the transition manager. A [revision-check] message leaves the queue
    alone; when its status is [stale] it posts [page-refresh], with the URL
    and the connection, to the service worker, or throws a [TypeError] when
    no service worker has been set, and with any other status it does
    nothing. A message of an unknown type changes nothing, and is reported in
    debug mode only. *)
Theorem worker_message_frame (debug : bool) (connection : Env.NetworkType)
    (serviceWorker : bool) (document : Document) (e : WorkerEvent) (this : Pjax) :
  let result := handleWorkerMessage parseHTML debug connection serviceWorker document e this in
  let this' := snd result in
  ∃ log,
    effects this' = effects this ++ log
    ∧ state this' = state this
    ∧ Forall (λ x, is_transitionManager x = false) log
    ∧ match e with
      | revision_check status url =>
          navigationRequestQueue this' = navigationRequestQueue this
          ∧ log = (if bool_decide (status = "stale") && serviceWorker
                   then [serviceWorker_postMessage (sw_page_refresh url connection)]
                   else [])
          ∧ is_Normal (fst result)
            = negb (bool_decide (status = "stale") && negb serviceWorker)
      | pjax _ _ _ _ _ => True
      | undefined_type type =>
          navigationRequestQueue this' = navigationRequestQueue this
          ∧ (log ≠ [] ↔ debug = true)
      end.
Proof.
  cbv zeta. destruct e as [status url|requestId status url body error|type]; simpl.
  - case_bool_decide; destruct serviceWorker; simpl.
    + eexists. split; [done|]. repeat split; by repeat constructor.
    + exists []. rewrite app_nil_r. by destruct this.
    + exists []. rewrite app_nil_r. by destruct this.
    + exists []. rewrite app_nil_r. by destruct this.
  - destruct (dispatch_spec parseHTML this
                (PjaxResponse document requestId status url body error)) as (log & He & Hs & H).
    exists log. split; [exact He|]. split; [exact Hs|]. split; [|done].
    case_bool_decide.
    + destruct H as (_ & Hn & _). eapply Forall_impl; [exact Hn|]. by intros [].
    + destruct H as (_ & Hc & _). eapply Forall_impl; [exact Hc|]. by intros [].
  - destruct debug; simpl.
    + eexists. split; [done|]. repeat split; try done. by repeat constructor.
    + exists []. rewrite app_nil_r. destruct this; simpl. repeat split; try done.
Qed.

End WorkerMessages.

Lemma worker_message_frame_witness :
  let this := run Sample.parseHTML
                [Load "A" "/about" None None None None "https://djinnjs.test/"] new in
  let stale := Coordinator.revision_check "stale" "https://djinnjs.test/" in
  snd (Coordinator.handleWorkerMessage Sample.parseHTML false Env._3g true Sample.home
         stale this)
  = {| state := state this;
       navigationRequestQueue := navigationRequestQueue this;
       effects := effects this
                  ++ [serviceWorker_postMessage
                        (sw_page_refresh "https://djinnjs.test/" Env._3g)] |}
  ∧ Coordinator.handleWorkerMessage Sample.parseHTML false Env._3g false Sample.home
      stale this
    = (Throw (TypeError "Cannot read property 'postMessage' of null"), this).
Proof.
  intros this stale.
  destruct (worker_message_frame Sample.parseHTML false Env._3g true Sample.home stale this)
    as (log & He & Hs & _ & Hq & Hlog & _).
  split; reflexivity.
Defined.

(** ** A swap before the reply *)

Section SwapBeforeReply.

Import Coordinator.

Variable parseHTML : string → Document.

Implicit Types (evs : list Event) (uid : string).

Lemma count_zero uid (queue : list NavigaitonRequest) :
  count uid queue = 0 → uid ∉ uids queue.
Proof.
  unfold count. induction (uids queue) as [|x l IH]; [by intros _ ?%elem_of_nil|].
  rewrite filter_cons. case_decide as Hx; simpl; [done|].
  intros H Hin. apply elem_of_cons in Hin as [->|Hin]; [done|]. by apply IH.
Qed.

Lemma count_pos uid (queue : list NavigaitonRequest) :
  uid ∈ uids queue → (0 < count uid queue)%nat.
Proof.
  intros Hin. destruct (count uid queue) eqn:Hc; [|lia].
  by apply count_zero in Hc.
Qed.

(** A queued request holds a fragment only once an [ok] reply for its
    identifier has been handled. *)
Lemma body_after_ok_reply evs :
  Forall (λ r, is_Some (body r) → Exists (ok_reply_for (requestUid r)) evs)
         (navigationRequestQueue (run parseHTML evs new)).
Proof.
  induction evs as [|ev evs IH] using rev_ind; [done|].
  rewrite run_snoc. set (this := run parseHTML evs new) in *.
  assert (Forall (λ r, is_Some (body r) → Exists (ok_reply_for (requestUid r)) (evs ++ [ev]))
                 (navigationRequestQueue this)) as Hq.
  { eapply Forall_impl; [exact IH|]. intros r H Hb. apply Exists_app. left. by apply H. }
  destruct ev as [uid url tr td h target cur|document id status url body error|id];
    unfold dispatch; cbn [handle].
  - rewrite navigate_spec. cbn [snd navigationRequestQueue].
    apply Forall_app. split; [done|]. apply Forall_singleton. simpl. by intros [? [=]].
  - destruct (handlePjaxResponse_queue parseHTML this document id status url body error)
      as [->| [->| (-> & i & r & b & t & Hfind & ->)]].
    + done.
    + by apply Forall_splice_first.
    + apply Forall_alter; [done|]. intros x Hx _ _. simpl.
      apply list_find_Some in Hfind as (Hi & Hr & _).
      rewrite Hi in Hx. injection Hx as <-.
      apply Exists_app. right. apply Exists_cons. left. done.
  - rewrite swapPjaxContent_spec.
    destruct (find id (navigationRequestQueue this)) as [[i r]|]; [|done].
    by apply Forall_splice_first.
Qed.

(** X21. [swapPjaxContent] does not check that a fragment has arrived. When
    the [css-ready] message for the request loaded last (under an identifier
    loaded once) is the first message to refer to it, the transition manager
    is called with an undefined fragment and the request leaves the queue;
    the [ok] reply that comes afterwards finds no request and throws a
    [TypeError]. *)
Theorem swap_before_reply evs uid :
  last_issued evs = Some uid →
  loads uid evs = 1 →
  pending uid evs →
  let this := run parseHTML evs new in
  let this' := dispatch parseHTML this (CssReady uid) in
  (∃ r, emitted parseHTML this (CssReady uid)
        = [ env_endPageTransition;
            transitionManager (swap_selector r) None (transition r) (transitionData r) r ])
  ∧ (uid ∉ uids (navigationRequestQueue this'))
  ∧ ∀ document url body error,
      handlePjaxResponse parseHTML document uid "ok" url body error this'
      = (Throw (TypeError "Cannot read property 'targetSelector' of null"), this').
Proof.
  intros Hlast Hloads Hpending. cbv zeta.
  pose proof (active_last_issued parseHTML evs) as Hactive. rewrite Hlast in Hactive.
  pose proof (pending_queued parseHTML evs uid Hpending) as Hqueued.
  pose proof (removals_accounting parseHTML uid evs new) as Hacc.
  change (count uid (navigationRequestQueue new)) with 0 in Hacc.
  pose proof (body_after_ok_reply evs) as Hbody.
  set (this := run parseHTML evs new) in *.
  destruct (find uid (navigationRequestQueue this)) as [[i r]|] eqn:Hfind;
    [|by apply find_None in Hfind].
  assert (body r = None) as Hnone.
  { destruct (body r) as [b|] eqn:Hb; [|done]. exfalso.
    pose proof (find_Some _ _ _ _ Hfind) as (_ & Hr & _).
    apply list_find_Some in Hfind as (Hi & _).
    rewrite Forall_forall in Hbody.
    specialize (Hbody r (list_elem_of_lookup_2 _ _ _ Hi)).
    rewrite Hb, Hr in Hbody. specialize (Hbody (mk_is_Some _ _ eq_refl)).
    apply Exists_exists in Hbody as (ev & Hev & Hok).
    destruct Hpending as [_ Hnot]. apply Hnot.
    apply list_elem_of_fmap. exists ev. split; [|done].
    destruct ev; simpl in *; try done. by destruct Hok as [-> _]. }
  assert (dispatch parseHTML this (CssReady uid)
          = {| state := state this;
               navigationRequestQueue := splice_first uid (navigationRequestQueue this);
               effects := effects this
                          ++ [ env_endPageTransition;
                               transitionManager (swap_selector r) None (transition r)
                                                 (transitionData r) r ] |}) as Hstep.
  { unfold dispatch. cbn [handle]. rewrite swapPjaxContent_spec, Hfind. cbn [snd].
    rewrite Hactive, bool_decide_eq_true_2 by done. by rewrite Hnone. }
  assert (uid ∉ uids (splice_first uid (navigationRequestQueue this))) as Hgone.
  { apply count_zero.
    pose proof (count_splice_first parseHTML uid uid (navigationRequestQueue this)) as Hc.
    rewrite bool_decide_eq_true_2 in Hc by done.
    pose proof (count_pos uid _ Hqueued). lia. }
  split; [|split].
  - exists r. apply emitted_spec. by rewrite Hstep.
  - by rewrite Hstep.
  - intros document url body error. rewrite Hstep.
    unfold handlePjaxResponse, getNavigaitonRequest, deref, lift, bind, gets, ret, throw.
    cbn beta iota. cbn [state navigationRequestQueue]. rewrite Hactive.
    rewrite (proj2 (find_None _ _) Hgone).
    rewrite bool_decide_eq_true_2 by done.
    rewrite (bool_decide_eq_false_2 ("ok" = "external")) by done.
    rewrite (bool_decide_eq_false_2 ("ok" = "hash-change")) by done.
    by rewrite (bool_decide_eq_true_2 ("ok" = "ok")) by done.
Qed.

End SwapBeforeReply.

Lemma swap_before_reply_witness :
  let evs := [Load "A" "/about" (Some "fade") None None None "https://djinnjs.test/"] in
  let this := run Sample.parseHTML evs new in
  emitted Sample.parseHTML this (CssReady "A")
  = [ env_endPageTransition;
      transitionManager main_selector None (Some "fade") None Sample.click_about ]
  ∧ fst (handlePjaxResponse Sample.parseHTML Sample.home "A" "ok" "/about"
           (Some Sample.about_body) None (dispatch Sample.parseHTML this (CssReady "A")))
    = Throw (TypeError "Cannot read property 'targetSelector' of null").
Proof.
  intros evs this. split; [reflexivity|].
  destruct (swap_before_reply Sample.parseHTML evs "A") as (_ & _ & H).
  - reflexivity.
  - reflexivity.
  - split; apply (bool_decide_unpack _); vm_compute; exact I.
  - by rewrite H.
Defined.
